(** * lib/spdy/server.js: protocol detection and session bootstrap

    A shallow embedding of the server facade of the SPDY/HTTP2 module:
    the prefix sniffer [hoseFilter], the connection entry points
    [_onConnection], [_onPlainConnection] and [_handleConnection], the
    stream adapter [_onStream] and the request shim [emit].

    Calls made on objects that live outside the file (the transport
    engine, the peeking hose, the saved listeners, the stream handle,
    the base event emitter) are recorded, in program order, in a trace. *)

From Stdlib Require Import QArith.
From Stdlib Require Import Strings.Byte Strings.Ascii.
From stdpp Require Import base strings list gmap.

Local Open Scope string_scope.
Local Open Scope nat_scope.
Local Open Scope list_scope.

(** ** JavaScript values *)

Module JS.

(** The primitive values the module handles: protocol identifiers are
    strings, absent ones are [undefined] or [null], option objects
    carry booleans and numbers. *)
Inductive value : Type :=
| undefined
| null
| boolean (b : bool)
| number (q : Q)
| str (s : string).

(** ToBoolean. *)
Definition truthy (v : value) : bool :=
  match v with
  | undefined | null => false
  | boolean b => b
  | number q => negb (Qeq_bool q 0)
  | str s => negb (String.eqb s "")
  end.

(** [a || b] *)
Definition or (a b : value) : value := if truthy a then a else b.

(** [a === b] *)
Definition strict_eq (a b : value) : bool :=
  match a, b with
  | undefined, undefined => true
  | null, null => true
  | boolean x, boolean y => Bool.eqb x y
  | number x, number y => Qeq_bool x y
  | str x, str y => String.eqb x y
  | _, _ => false
  end.

(** [s] occurs in [t] at some offset: an unanchored literal pattern. *)
Fixpoint occurs (s t : string) : bool :=
  String.prefix s t ||
  match t with
  | EmptyString => false
  | String _ t' => occurs s t'
  end.

(** [/spdy/.test(v)]; the argument is coerced to a string first. *)
Definition test_spdy (v : value) : bool :=
  match v with
  | str s => occurs "spdy" s
  | undefined => occurs "spdy" "undefined"
  | null => occurs "spdy" "null"
  | boolean b => occurs "spdy" (if b then "true" else "false")
  | number _ => false  (* digits, a sign, a dot, "Infinity" or "NaN" *)
  end.

End JS.

Import JS.

(** ** The prefix sniffer *)

Definition CRLF : string := String "013"%char (String "010"%char EmptyString).

(** [var PREFACE = 'PRI * HTTP/2.0\r\n\r\nSM\r\n\r\n';] *)
Definition PREFACE : string :=
  "PRI * HTTP/2.0" +:+ CRLF +:+ CRLF +:+ "SM" +:+ CRLF +:+ CRLF.

(** [var PREFACE_BUFFER = new Buffer(PREFACE);] *)
Definition PREFACE_BUFFER : list byte := String.list_byte_of_string PREFACE.

#[global] Instance byte_eq_dec : EqDecision byte := Byte.byte_eq_dec.

Section HoseFilter.

(** The continuation [callback(err, protocol)] and its answer type. *)
Context {R : Type}.
Variable data : list byte.
Variable callback : value → value → R.

(** The body of
    [for (var i = 0; i < avail; i++)
       if (data[i] !== PREFACE_BUFFER[i]) return callback(null, 'http/1.1');]
    with [n] the number of iterations left ([avail - i]).  [Some r]
    is a return from inside the loop, [None] falls out of it. *)
Fixpoint preface_loop (n i : nat) : option R :=
  match n with
  | 0 => None
  | S n' =>
      if bool_decide (data !! i ≠ PREFACE_BUFFER !! i)
      then Some (callback null (str "http/1.1"))
      else preface_loop n' (S i)
  end.

Definition hoseFilter : R :=
  if bool_decide (length data < 1) then callback null null
  else if bool_decide (data !! 0 = Some x80) then callback null (str "spdy")
  else
    let avail := Nat.min (length data) (length PREFACE_BUFFER) in
    match preface_loop avail 0 with
    | Some r => r
    | None =>
        if bool_decide (avail ≠ length PREFACE_BUFFER) then callback null null
        else callback null (str "h2")
    end.

End HoseFilter.

(** The classification handed to the callback: [(err, protocol)]. *)
Definition sniff (data : list byte) : value * value :=
  hoseFilter data (λ err protocol, (err, protocol)).

(** ** Objects exchanged with the collaborators *)

(** [stream.connection]: the session a logical stream belongs to, seen
    through the one method the server calls on it. *)
Record StreamConnection : Type := {
  getVersion : value
}.

(** A logical stream announced by a session. *)
Record Stream : Type := {
  stream_id : nat;
  stream_connection : StreamConnection
}.

(** Modelled from the spec: lib/spdy/handle.js is not among the
    sources.  The handle made by [spdy.handle.create(stream)] "wraps
    exactly one Logical Stream" and stands in for a native socket
    handle; [getStream] gives the stream back, and its other methods
    ([assignSocket], [emitRequest], [assignRequest], [assignResponse])
    appear as calls in the trace. *)
Record Handle : Type := {
  getStream : Stream
}.

(** What [socket._handle] can hold. *)
Inductive socket_handle : Type :=
| no_handle
| native_handle
| spdy_handle (h : Handle).

(** [x instanceof spdy.handle] *)
Definition instanceof_spdy_handle (x : socket_handle) : bool :=
  match x with
  | spdy_handle _ => true
  | _ => false
  end.

(** A [net.Socket] (or [tls] socket), with the properties the server
    reads or writes. *)
Record Socket : Type := {
  fd : nat;
  _handle : socket_handle;
  allowHalfOpen : bool;
  encrypted : value;
  readable : bool;
  writable : bool;
  npnProtocol : value;
  alpnProtocol : value
}.

(** Function values stored on a response object.

    Modelled from the spec: lib/spdy/response.js is not among the
    sources.  Its [writeHead], [end] and [push] are the "versions that
    route through the Logical Stream instead of a raw socket write";
    only which function a property holds matters here. *)
Inductive method : Type :=
| http_method (name : string)
| spdy_response_writeHead
| spdy_response_end
| spdy_response_push.

Record Request : Type := {
  req_id : nat;
  req_socket : Socket;
  req_connection : Socket;
  isSpdy : value;
  spdyVersion : value
}.

Record Response : Type := {
  res_id : nat;
  writeHead : option method;
  end_ : option method;
  push : option method
}.

(** Saved connection listeners and request handlers are functions of
    the host; only their identity and the order of their calls matter. *)
Definition Listener : Type := nat.

(** ** Options *)

(** [options.spdy] *)
Record SpdyOptions : Type := {
  opt_protocols : option (list string);
  opt_plain : value;
  opt_protocol : value;
  opt_connection : option (gmap string value)
}.

(** [{}] *)
Definition no_spdy_options : SpdyOptions :=
  {| opt_protocols := None; opt_plain := undefined;
     opt_protocol := undefined; opt_connection := None |}.

(** The [options] argument of the constructor; of the listener's own
    options only the two the server pre-sets are kept. *)
Record Options : Type := {
  spdy : option SpdyOptions;
  NPNProtocols : option (list string);
  ALPNProtocols : option (list string)
}.

(** The object handed to the base constructor. *)
Record ActualOptions : Type := {
  actual_NPNProtocols : list string;
  actual_ALPNProtocols : list string
}.

(** [util._extend(origin, add)] on option objects: every key of [add]
    is written over [origin]. *)
Definition _extend (origin add : gmap string value) : gmap string value :=
  add ∪ origin.

(** ** The server object *)

(** [this._spdyState] *)
Record State : Type := {
  options : SpdyOptions;
  secure : bool;
  listeners : list Listener
}.

(** The two dispatch entry points [_init] can register. *)
Inductive entry : Type :=
| entry_onConnection
| entry_onPlainConnection.

Record Server : Type := {
  _spdyState : State;
  httpAllowHalfOpen : bool;
  connection_event : string;
  connection_entry : entry;
  request_handlers : list Listener
}.

(** The wrapped listener type: whether its instances are [tls.Server]s
    and which listeners its constructor leaves on each event. *)
Record Base : Type := {
  instanceof_tls_Server : bool;
  base_listeners : string → list Listener
}.

(** ** Closures and calls *)

(** The function expressions of the file, closed over their free
    variables. *)
Inductive callback : Type :=
| cb_destroy (socket : Socket)
    (* function() { socket.destroy(); } *)
| cb_stream
    (* function(stream) { self._onStream(stream); } *)
| cb_select
    (* function(protocol, socket) { self._handleConnection(socket, protocol); } *)
| cb_hose_error (socket : Socket).
    (* function(err) { debug('hose error %j', err.message); socket.destroy(); } *)

(** Arguments an emitter passes to a callback. *)
Inductive cb_args : Type :=
| args_none
| args_error (message : value)
| args_stream (stream : Stream)
| args_select (protocol : value) (socket : Socket).

(** [transport.connection.create(socket, options)] *)
Record Connection : Type := {
  conn_socket : Socket;
  conn_options : gmap string value
}.

(** Calls on objects outside the file, in program order. *)
Inductive event : Type :=
| base_call (actualOptions : option ActualOptions)
| debug (format : string) (args : list value)
| listener_call (l : Listener) (socket : Socket)
| transport_connection_create (c : Connection)
| connection_start (c : Connection) (version : Q)
| connection_on (c : Connection) (name : string) (cb : callback)
| selectHose_create (socket : Socket)
| hose_filter (buffer : list byte)
| hose_on (socket : Socket) (name : string) (cb : callback)
| socket_destroy (socket : Socket)
| spdy_handle_create (stream : Stream)
| net_Socket_new (h : Handle) (allowHalfOpen : bool)
| handle_assignSocket (h : Handle) (socket : Socket)
| handle_emitRequest (h : Handle)
| handle_assignRequest (h : Handle) (req : Request)
| handle_assignResponse (h : Handle) (res : Response)
| EventEmitter_emit (name : string) (req : Request) (res : Response).

(** ** Effects: a trace of calls, ended by a return or a throw *)

Inductive outcome (A : Type) : Type :=
| returned (a : A)
| thrown (message : string).
Arguments returned {A} a.
Arguments thrown {A} message.

Record M (A : Type) : Type := run {
  trace : list event;
  result : outcome A
}.
Arguments run {A} trace result.
Arguments trace {A} m.
Arguments result {A} m.

#[global] Instance M_ret : MRet M := λ A a, run [] (returned a).

#[global] Instance M_bind : MBind M := λ A B k m,
  match result m with
  | returned a => run (trace m ++ trace (k a))%list (result (k a))
  | thrown e => run (trace m) (thrown e)
  end.

Definition tell (e : event) : M unit := run [e] (returned ()).

Definition throw {A : Type} (message : string) : M A := run [] (thrown message).

(** [for (var i = 0; i < n; i++) body(i)], started at [i] with [n]
    iterations left. *)
Fixpoint for_loop (n i : nat) (body : nat → M unit) : M unit :=
  match n with
  | 0 => mret ()
  | S n' => body i;; for_loop n' (S i) body
  end.

(** ** Equality of the objects *)

#[global] Instance Q_eq_dec : EqDecision Q.
Proof. solve_decision. Defined.
#[global] Instance value_eq_dec : EqDecision value.
Proof. solve_decision. Defined.
#[global] Instance StreamConnection_eq_dec : EqDecision StreamConnection.
Proof. solve_decision. Defined.
#[global] Instance Stream_eq_dec : EqDecision Stream.
Proof. solve_decision. Defined.
#[global] Instance Handle_eq_dec : EqDecision Handle.
Proof. solve_decision. Defined.
#[global] Instance socket_handle_eq_dec : EqDecision socket_handle.
Proof. solve_decision. Defined.
#[global] Instance Socket_eq_dec : EqDecision Socket.
Proof. solve_decision. Defined.
#[global] Instance Connection_eq_dec : EqDecision Connection.
Proof. solve_decision. Defined.

(** ** What a trace says about the collaborators *)

(** The callbacks registered with [connection.on(name, ...)] on [c]. *)
Definition connection_listeners (t : list event) (c : Connection) (name : string)
  : list callback :=
  omap (λ e, match e with
             | connection_on c' n cb =>
                 if bool_decide (c' = c ∧ n = name) then Some cb else None
             | _ => None
             end) t.

(** The callbacks registered with [hose.on(name, ...)] on the hose of [socket]. *)
Definition hose_listeners (t : list event) (socket : Socket) (name : string)
  : list callback :=
  omap (λ e, match e with
             | hose_on s n cb =>
                 if bool_decide (s = socket ∧ n = name) then Some cb else None
             | _ => None
             end) t.

(** The sessions constructed, oldest first. *)
Definition sessions (t : list event) : list Connection :=
  omap (λ e, match e with transport_connection_create c => Some c | _ => None end) t.

(** The versions handed to [connection.start] on [c]. *)
Definition pinned_versions (t : list event) (c : Connection) : list Q :=
  omap (λ e, match e with
             | connection_start c' v => if bool_decide (c' = c) then Some v else None
             | _ => None
             end) t.

(** The buffers the sniffer was run on. *)
Definition sniffed (t : list event) : list (list byte) :=
  omap (λ e, match e with hose_filter b => Some b | _ => None end) t.

(** The identifiers reported by [debug('incoming socket protocol=%j', protocol)]:
    the protocol that governs the connection from there on. *)
Definition governing (t : list event) : list value :=
  omap (λ e, match e with
             | debug "incoming socket protocol=%j" [p] => Some p
             | _ => None
             end) t.

(** ** lib/spdy/server.js *)

Definition default_protocols : list string :=
  ["h2"; "spdy/3.1"; "spdy/3"; "spdy/2"; "http/1.1"; "http/1.0"].

(** [proto._init]; [assert] throws when the base left no listener. *)
Definition _init (base : Base) (opts : Options) (handler : option Listener)
  : M Server :=
  let state_options := default no_spdy_options (spdy opts) in
  let protocols := default default_protocols (opt_protocols state_options) in
  let actualOptions :=
    {| actual_NPNProtocols := default protocols (NPNProtocols opts);
       actual_ALPNProtocols := default protocols (ALPNProtocols opts) |} in
  let state_secure := instanceof_tls_Server base in
  (if state_secure then tell (base_call (Some actualOptions))
   else tell (base_call None));;
  let event := if state_secure then "secureConnection" else "connection" in
  let state_listeners := base_listeners base event in
  if negb (bool_decide (0 < length state_listeners))
  then throw "Server does not have default listeners"
  else
    tell (debug "server init secure=%d" [boolean state_secure]);;
    mret {| _spdyState := {| options := state_options;
                             secure := state_secure;
                             listeners := state_listeners |};
            httpAllowHalfOpen := true;
            connection_event := event;
            connection_entry := if truthy (opt_plain state_options)
                                then entry_onPlainConnection
                                else entry_onConnection;
            request_handlers := match handler with
                                | Some h => [h]
                                | None => []
                                end |}.

(** [proto._invokeDefault] *)
Definition _invokeDefault (self : Server) (socket : Socket) : M unit :=
  let state := _spdyState self in
  for_loop (length (listeners state)) 0 (λ i,
    match listeners state !! i with
    | Some l => tell (listener_call l socket)
    | None => throw "TypeError: Cannot read property 'call' of undefined"
    end).

(** [proto._handleConnection] *)
Definition _handleConnection (self : Server) (socket : Socket) (protocol : value)
  : M unit :=
  let state := _spdyState self in
  let protocol :=
    if negb (truthy protocol) then opt_protocol (options state) else protocol in
  tell (debug "incoming socket protocol=%j" [protocol]);;
  if negb (truthy protocol)
     || strict_eq protocol (str "http/1.1")
     || strict_eq protocol (str "http/1.0")
  then
    tell (debug "to default handler it goes" []);;
    _invokeDefault self socket
  else
    let connection :=
      {| conn_socket := socket;
         conn_options :=
           _extend {[ "protocol" := str (if test_spdy protocol then "spdy" else "http2");
                      "isServer" := boolean true ]}
                   (default ∅ (opt_connection (options state))) |} in
    tell (transport_connection_create connection);;
    (if strict_eq protocol (str "http2") then tell (connection_start connection 4)
     else if strict_eq protocol (str "spdy/3.1") then tell (connection_start connection 3.1)
     else if strict_eq protocol (str "spdy/3") then tell (connection_start connection 3)
     else if strict_eq protocol (str "spdy/2") then tell (connection_start connection 2)
     else mret ());;
    tell (connection_on connection "error" (cb_destroy socket));;
    tell (connection_on connection "stream" cb_stream).

(** [proto._onConnection] *)
Definition _onConnection (self : Server) (socket : Socket) : M unit :=
  let state := _spdyState self in
  let protocol :=
    if secure state then JS.or (npnProtocol socket) (alpnProtocol socket)
    else undefined in
  _handleConnection self socket protocol.

(** [proto._onPlainConnection] *)
Definition _onPlainConnection (self : Server) (socket : Socket) : M unit :=
  tell (selectHose_create socket);;
  tell (hose_on socket "select" cb_select);;
  tell (hose_on socket "error" (cb_hose_error socket)).

(** [proto.emit] *)
Definition emit (self : Server) (name : string) (req : Request) (res : Response)
  : M unit :=
  if negb (String.eqb name "request") then tell (EventEmitter_emit name req res)
  else if negb (instanceof_spdy_handle (_handle (req_socket req))) then
    tell (debug "not spdy req/res" []);;
    let req := {| req_id := req_id req; req_socket := req_socket req;
                  req_connection := req_connection req;
                  isSpdy := boolean false; spdyVersion := number 1 |} in
    tell (EventEmitter_emit name req res)
  else
    match _handle (req_connection req) with
    | spdy_handle handle =>
        let req := {| req_id := req_id req; req_socket := req_socket req;
                      req_connection := req_connection req;
                      isSpdy := boolean true;
                      spdyVersion := getVersion (stream_connection (getStream handle)) |} in
        tell (debug "override req/res" []);;
        let res := {| res_id := res_id res;
                      writeHead := Some spdy_response_writeHead;
                      end_ := Some spdy_response_end;
                      push := Some spdy_response_push |} in
        tell (handle_assignRequest handle req);;
        tell (handle_assignResponse handle res);;
        tell (EventEmitter_emit name req res)
    | _ => throw "TypeError"  (* [handle.getStream()] on a handle that has none *)
    end.

Section Host.

(** [new net.Socket({ handle: h, allowHalfOpen: a })].  The values the
    host's constructor leaves in the socket's properties differ between
    host versions, so the constructor is a parameter. *)
Variable net_Socket : Handle → bool → Socket.

(** [proto._onStream].  The handle and the listeners receive the socket
    object itself; the trace shows it as it is at each call. *)
Definition _onStream (self : Server) (stream : Stream) : M unit :=
  tell (spdy_handle_create stream);;
  let handle := {| getStream := stream |} in
  tell (net_Socket_new handle true);;
  let socket := net_Socket handle true in
  let socket := {| fd := fd socket; _handle := _handle socket;
                   allowHalfOpen := allowHalfOpen socket;
                   encrypted := boolean true;
                   readable := readable socket; writable := writable socket;
                   npnProtocol := npnProtocol socket;
                   alpnProtocol := alpnProtocol socket |} in
  tell (handle_assignSocket handle socket);;
  let socket := {| fd := fd socket; _handle := _handle socket;
                   allowHalfOpen := allowHalfOpen socket;
                   encrypted := encrypted socket;
                   readable := true; writable := writable socket;
                   npnProtocol := npnProtocol socket;
                   alpnProtocol := alpnProtocol socket |} in
  let socket := {| fd := fd socket; _handle := _handle socket;
                   allowHalfOpen := allowHalfOpen socket;
                   encrypted := encrypted socket;
                   readable := readable socket; writable := true;
                   npnProtocol := npnProtocol socket;
                   alpnProtocol := alpnProtocol socket |} in
  _invokeDefault self socket;;
  tell (handle_emitRequest handle).

(** Calling one of the file's function expressions. *)
Definition run_callback (self : Server) (cb : callback) (args : cb_args) : M unit :=
  match cb with
  | cb_destroy socket => tell (socket_destroy socket)
  | cb_stream =>
      match args with
      | args_stream stream => _onStream self stream
      | _ => throw "TypeError"
      end
  | cb_select =>
      match args with
      | args_select protocol socket => _handleConnection self socket protocol
      | _ => throw "TypeError"
      end
  | cb_hose_error socket =>
      match args with
      | args_error message =>
          tell (debug "hose error %j" [message]);;
          tell (socket_destroy socket)
      | _ => throw "TypeError: Cannot read property 'message' of undefined"
      end
  end.

(** An emitter calling its listeners in registration order. *)
Fixpoint emit_to (self : Server) (cbs : list callback) (args : cb_args) : M unit :=
  match cbs with
  | [] => mret ()
  | cb :: cbs' => run_callback self cb args;; emit_to self cbs' args
  end.

(** The session [c] raising ['error'] after the calls of [t]. *)
Definition session_error (self : Server) (t : list event) (c : Connection)
  (message : value) : M unit :=
  emit_to self (connection_listeners t c "error") (args_error message).

(** The peeking hose of the select-hose package, at its interface: each
    chunk is appended to the buffer and the filter runs on the whole
    buffer; a protocol ends the peeking with ['select'], an error with
    ['error'], neither waits for the next chunk. *)
Fixpoint hose_data (self : Server) (socket : Socket)
  (on_select on_error : list callback)
  (buffer : list byte) (chunks : list (list byte)) : M unit :=
  match chunks with
  | [] => mret ()
  | chunk :: chunks' =>
      let buffer := (buffer ++ chunk)%list in
      tell (hose_filter buffer);;
      hoseFilter buffer (λ err protocol,
        if truthy err then emit_to self on_error (args_error err)
        else if truthy protocol
             then emit_to self on_select (args_select protocol socket)
             else hose_data self socket on_select on_error buffer chunks')
  end.

(** One accepted connection whose client then sends [chunks]: the
    listener calls the entry point registered by [_init]; a hose, when
    one was created, sees the chunks. *)
Definition accept (self : Server) (socket : Socket) (chunks : list (list byte))
  : M unit :=
  match connection_entry self with
  | entry_onConnection => _onConnection self socket
  | entry_onPlainConnection =>
      let m := _onPlainConnection self socket in
      m;;
      hose_data self socket
        (hose_listeners (trace m) socket "select")
        (hose_listeners (trace m) socket "error")
        [] chunks
  end.

End Host.

(** ** The rule order of the negotiation resolver, as specified *)

(** What peeking at [chunks] amounts to: the filter runs on each
    cumulative buffer up to the first one it classifies, and that
    classification is the definitive result ([null] when none is). *)
Fixpoint peek (buffer : list byte) (chunks : list (list byte))
  : list (list byte) * value :=
  match chunks with
  | [] => ([], null)
  | chunk :: chunks' =>
      let buffer := (buffer ++ chunk)%list in
      let protocol := (sniff buffer).2 in
      if truthy protocol then ([buffer], protocol)
      else let '(buffers, p) := peek buffer chunks' in (buffer :: buffers, p)
  end.

(** The specification's rule order for one accepted connection:
    (1) secured with a negotiation result: that result, no sniffing;
    (2) otherwise a configured default, when there is one;
    (3) only otherwise, on a plaintext connection, the sniffer's
        definitive result. *)
Definition rule_order_as_specified (self : Server) (socket : Socket)
  (chunks : list (list byte)) (t : list event) : Prop :=
  let state := _spdyState self in
  let negotiated := JS.or (npnProtocol socket) (alpnProtocol socket) in
  let configured := opt_protocol (options state) in
  if secure state && truthy negotiated
  then governing t = [negotiated] ∧ sniffed t = []
  else if truthy configured
  then governing t = [configured] ∧ sniffed t = []
  else secure state = false →
       sniffed t = (peek [] chunks).1 ∧
       (truthy (peek [] chunks).2 → governing t = [(peek [] chunks).2]).

(** ** The request shim, as specified *)

(** The specification's shim, for every pair [(req', res')] that a run
    of [emit] on [(req, res)] hands to the base emitter, whatever the
    event: on a socket whose handle is not a stream handle the request
    is marked non-multiplexed at version 1 and the response is as it
    was; on an adapter the request is marked multiplexed with the
    session's version, the response has the stream-routed [writeHead],
    [end] and [push], and the handle was given both. *)
Definition shim_as_specified (req : Request) (res : Response) (t : list event) : Prop :=
  ∀ name req' res',
    EventEmitter_emit name req' res' ∈ t →
    match _handle (req_socket req) with
    | spdy_handle handle =>
        isSpdy req' = boolean true ∧
        spdyVersion req' = getVersion (stream_connection (getStream handle)) ∧
        writeHead res' = Some spdy_response_writeHead ∧
        end_ res' = Some spdy_response_end ∧
        push res' = Some spdy_response_push ∧
        handle_assignRequest handle req' ∈ t ∧
        handle_assignResponse handle res' ∈ t
    | _ =>
        isSpdy req' = boolean false ∧
        spdyVersion req' = number 1 ∧
        res' = res
    end.

(** ** Sample hosts, servers and connections *)

(** A host whose socket constructor leaves both directions closed. *)
Definition closed_net_Socket (h : Handle) (allow : bool) : Socket :=
  {| fd := 0; _handle := spdy_handle h; allowHalfOpen := allow;
     encrypted := undefined; readable := false; writable := false;
     npnProtocol := undefined; alpnProtocol := undefined |}.

(** An accepted plaintext socket. *)
Definition tcp_socket (n : nat) : Socket :=
  {| fd := n; _handle := native_handle; allowHalfOpen := false;
     encrypted := undefined; readable := true; writable := true;
     npnProtocol := undefined; alpnProtocol := undefined |}.

(** An accepted secured socket with its negotiation result. *)
Definition tls_socket (n : nat) (npn : value) : Socket :=
  {| fd := n; _handle := native_handle; allowHalfOpen := false;
     encrypted := boolean true; readable := true; writable := true;
     npnProtocol := npn; alpnProtocol := undefined |}.

(** [http.Server] and [https.Server], each with two listeners on its
    connection event. *)
Definition http_Server : Base :=
  {| instanceof_tls_Server := false;
     base_listeners := λ e, if String.eqb e "connection" then [10; 11] else [] |}.

Definition https_Server : Base :=
  {| instanceof_tls_Server := true;
     base_listeners := λ e, if String.eqb e "secureConnection" then [20; 21] else [] |}.

(** [{ spdy: { plain: true, protocol: 'spdy/3.1' } }] *)
Definition plain_options : Options :=
  {| spdy := Some {| opt_protocols := None; opt_plain := boolean true;
                     opt_protocol := str "spdy/3.1"; opt_connection := None |};
     NPNProtocols := None; ALPNProtocols := None |}.

(** [{}] *)
Definition no_options : Options :=
  {| spdy := None; NPNProtocols := None; ALPNProtocols := None |}.

(** [create(http.Server, { spdy: { plain: true, protocol: 'spdy/3.1' } })] *)
Definition plain_server : Server :=
  {| _spdyState := {| options := default no_spdy_options (spdy plain_options);
                      secure := false; listeners := [10; 11] |};
     httpAllowHalfOpen := true;
     connection_event := "connection";
     connection_entry := entry_onPlainConnection;
     request_handlers := [] |}.

(** [create({})] *)
Definition secure_server : Server :=
  {| _spdyState := {| options := no_spdy_options;
                      secure := true; listeners := [20; 21] |};
     httpAllowHalfOpen := true;
     connection_event := "secureConnection";
     connection_entry := entry_onConnection;
     request_handlers := [] |}.

(** A request line, as a plain HTTP client would send it. *)
Definition GET_line : list byte :=
  String.list_byte_of_string ("GET / HTTP/1.1" +:+ CRLF).

(** A stream of a session that reports version 3.1. *)
Definition stream_1 : Stream :=
  {| stream_id := 1; stream_connection := {| getVersion := number 3.1 |} |}.

(** The request and response the host's parser builds on a socket. *)
Definition request_on (socket : Socket) : Request :=
  {| req_id := 1; req_socket := socket; req_connection := socket;
     isSpdy := undefined; spdyVersion := undefined |}.

Definition response_1 : Response :=
  {| res_id := 1; writeHead := Some (http_method "writeHead");
     end_ := Some (http_method "end"); push := None |}.

(** ** The constructors *)

(** The listeners called in a trace, with the socket each received. *)
Definition listener_calls (t : list event) : list (Listener * Socket) :=
  omap (λ e, match e with listener_call l s => Some (l, s) | _ => None end) t.

(** [instantiate(base)]: the constructor [Server(options, handler)],
    whose body is the call of [_init]; [Server.create] is [new Server]. *)
Definition instantiate (base : Base) (opts : Options) (handler : option Listener)
  : M Server :=
  _init base opts handler.

(** The two ways [exports.create] is called: with a listener type
    first, or with the options first ([typeof base === 'object'], which
    moves the arguments one place and leaves [base] null). *)
Inductive create_arguments : Type :=
| with_base (base : Base) (opts : Options) (handler : option Listener)
| without_base (opts : Options) (handler : option Listener).

Section Create.

(** The host's [https.Server] and [http.Server]. *)
Variable node_https_Server node_http_Server : Base.

(** [exports.create]; [exports.Server] and [exports.PlainServer] are
    [instantiate(https.Server)] and [instantiate(http.Server)]. *)
Definition create (args : create_arguments) : M Server :=
  match args with
  | with_base base opts handler => instantiate base opts handler
  | without_base opts handler =>
      if match spdy opts with
         | Some spdy_options => truthy (opt_plain spdy_options)
         | None => false
         end
      then instantiate node_http_Server opts handler
      else instantiate node_https_Server opts handler
  end.

End Create.

(** The identifier [_handleConnection] goes by: its argument, or
    [state.options.protocol] when the argument is falsy (lines 94-95). *)
Definition resolved_protocol (self : Server) (protocol : value) : value :=
  if negb (truthy protocol) then opt_protocol (options (_spdyState self)) else protocol.

(** The test that sends a socket to the default handlers (line 100). *)
Definition goes_to_default (protocol : value) : bool :=
  negb (truthy protocol)
  || strict_eq protocol (str "http/1.1")
  || strict_eq protocol (str "http/1.0").

(** [{ spdy: { connection: { protocol: 'spdy', windowSize: 1048576 } } }] *)
Definition tuned_options : Options :=
  {| spdy := Some {| opt_protocols := None; opt_plain := undefined;
                     opt_protocol := undefined;
                     opt_connection :=
                       Some {[ "protocol" := str "spdy";
                               "windowSize" := number 1048576 ]} |};
     NPNProtocols := None; ALPNProtocols := None |}.

(** [create(tuned_options)] *)
Definition tuned_server : Server :=
  {| _spdyState := {| options := default no_spdy_options (spdy tuned_options);
                      secure := true; listeners := [20; 21] |};
     httpAllowHalfOpen := true;
     connection_event := "secureConnection";
     connection_entry := entry_onConnection;
     request_handlers := [] |}.

(** A listener type whose constructor leaves no connection listener. *)
Definition bare_Server : Base :=
  {| instanceof_tls_Server := false; base_listeners := λ _, [] |}.

(** * Properties *)

(** ** The prefix sniffer *)

Lemma PREFACE_BUFFER_length : length PREFACE_BUFFER = 24.
Proof. reflexivity. Qed.

Section HoseFilterFacts.

Context {R : Type}.
Variable callback : value → value → R.

(** The loop falls through exactly when the bytes at [i .. i+n) agree. *)
Lemma preface_loop_None (data : list byte) (n i : nat) :
  preface_loop data callback n i = None ↔
  ∀ j, i ≤ j < i + n → data !! j = PREFACE_BUFFER !! j.
Proof.
  revert i. induction n as [|n IH]; intros i; simpl.
  - split; [intros _ j Hj; lia | done].
  - case_bool_decide as Hne.
    + split; [done|]. intros Hall. exfalso. apply Hne, Hall. lia.
    + rewrite IH.
      split; intros Hall j Hj.
      * destruct (decide (j = i)) as [->|]; [done|]. apply Hall. lia.
      * apply Hall. lia.
Qed.

(** The only value the loop ever returns. *)
Lemma preface_loop_Some (data : list byte) (n i : nat) (r : R) :
  preface_loop data callback n i = Some r → r = callback null (str "http/1.1").
Proof.
  revert i. induction n as [|n IH]; intros i; simpl; [done|].
  case_bool_decide; [congruence | apply IH].
Qed.

Lemma preface_loop_mismatch (data : list byte) (n i k : nat) :
  i ≤ k < i + n → data !! k ≠ PREFACE_BUFFER !! k →
  preface_loop data callback n i = Some (callback null (str "http/1.1")).
Proof.
  intros Hk Hne.
  destruct (preface_loop data callback n i) as [r|] eqn:E.
  - f_equal. by eapply preface_loop_Some.
  - exfalso. apply Hne. by eapply preface_loop_None.
Qed.

(** C4.  A buffer whose first byte is the marker [0x80] is classified
    ['spdy'] at once, whatever follows it: the preface is not
    consulted. *)
Theorem hoseFilter_marker_first (rest : list byte) :
  hoseFilter (x80 :: rest) callback = callback null (str "spdy").
Proof.
  unfold hoseFilter.
  case_bool_decide as Hlen; [simpl in Hlen; lia|].
  by case_bool_decide.
Qed.

(** C3.  When [data] departs from the preface at position [k] (and
    does not start with the marker), every buffer holding at least
    its first [k+1] bytes is classified ['http/1.1']: the answer is
    never "need more bytes". *)
Theorem hoseFilter_divergence (data : list byte) (k n : nat) :
  data !! 0 ≠ Some x80 →
  k < length data →
  k < length PREFACE_BUFFER →
  data !! k ≠ PREFACE_BUFFER !! k →
  k < n →
  hoseFilter (take n data) callback = callback null (str "http/1.1").
Proof.
  intros Hmarker Hdata Hpre Hne Hn.
  unfold hoseFilter.
  assert (Hlen : k < length (take n data)) by (rewrite length_take; lia).
  case_bool_decide; [lia|].
  rewrite (lookup_take_lt data n 0) by lia.
  case_bool_decide; [done|].
  cbv zeta.
  rewrite (preface_loop_mismatch _ _ 0 k); [done | lia |].
  by rewrite lookup_take_lt.
Qed.

(** C5.  When every available byte agrees with the preface, the
    answer is "need more bytes" ([null]) as long as the buffer is
    shorter than the preface, the empty buffer included, and ['h2']
    once the whole preface is there. *)
Theorem hoseFilter_matching (data : list byte) :
  (∀ i, i < length data → i < length PREFACE_BUFFER →
        data !! i = PREFACE_BUFFER !! i) →
  (length data < length PREFACE_BUFFER →
     hoseFilter data callback = callback null null) ∧
  (length PREFACE_BUFFER ≤ length data →
     hoseFilter data callback = callback null (str "h2")).
Proof.
  intros Hall.
  assert (Hloop : preface_loop data callback
                    (length data `min` length PREFACE_BUFFER) 0 = None).
  { apply preface_loop_None. intros j Hj. apply Hall; lia. }
  assert (Hfirst : 0 < length data → data !! 0 ≠ Some x80).
  { intros Hpos. rewrite Hall; [done | done | rewrite PREFACE_BUFFER_length; lia]. }
  unfold hoseFilter. split; intros Hlen.
  - case_bool_decide; [done|].
    case_bool_decide as Hm; [exfalso; apply Hfirst; [lia | done]|].
    cbv zeta. rewrite Hloop. case_bool_decide; [done | lia].
  - rewrite PREFACE_BUFFER_length in Hlen.
    case_bool_decide; [lia|].
    case_bool_decide as Hm; [exfalso; apply Hfirst; [lia | done]|].
    cbv zeta. rewrite Hloop. case_bool_decide as Hmin; [|done].
    rewrite PREFACE_BUFFER_length in Hmin. lia.
Qed.

End HoseFilterFacts.

(** A request line departs from the preface at its first byte; a
    buffer may also agree for six bytes and depart at the seventh. *)
Lemma hoseFilter_divergence_witness :
  sniff (take 1 GET_line) = (null, str "http/1.1") ∧
  sniff (take 7 (take 6 PREFACE_BUFFER ++ GET_line)) = (null, str "http/1.1").
Proof.
  split.
  - apply (hoseFilter_divergence (λ e p, (e, p)) GET_line 0 1);
      [done | simpl; lia | simpl; lia | done | lia].
  - apply (hoseFilter_divergence (λ e p, (e, p))
             (take 6 PREFACE_BUFFER ++ GET_line) 6 7);
      [done | simpl; lia | simpl; lia | done | lia].
Defined.

(** The empty buffer, the first ten bytes of the preface, and the
    whole preface. *)
Lemma hoseFilter_matching_witness :
  sniff [] = (null, null) ∧
  sniff (take 10 PREFACE_BUFFER) = (null, null) ∧
  sniff PREFACE_BUFFER = (null, str "h2").
Proof.
  assert (Hpre : ∀ n i, i < length (take n PREFACE_BUFFER) →
                        i < length PREFACE_BUFFER →
                        take n PREFACE_BUFFER !! i = PREFACE_BUFFER !! i).
  { intros n i Hi _. apply lookup_take_lt. rewrite length_take in Hi. lia. }
  split; [|split].
  - apply (hoseFilter_matching (λ e p, (e, p)) []); [|simpl; lia].
    intros i Hi. simpl in Hi. lia.
  - apply (hoseFilter_matching (λ e p, (e, p)) (take 10 PREFACE_BUFFER));
      [apply Hpre | simpl; lia].
  - apply (hoseFilter_matching (λ e p, (e, p)) PREFACE_BUFFER); [done | lia].
Defined.

(** ** Traces *)

(** The loop of [_invokeDefault] calls each saved listener once, in
    the order of the list, and returns. *)
Lemma for_loop_listeners (all ls : list Listener) (socket : Socket) (i : nat) :
  (∀ j l, ls !! j = Some l → all !! (i + j) = Some l) →
  for_loop (length ls) i (λ i,
    match all !! i with
    | Some l => tell (listener_call l socket)
    | None => throw "TypeError: Cannot read property 'call' of undefined"
    end) = run ((λ l, listener_call l socket) <$> ls) (returned ()).
Proof.
  revert i. induction ls as [|l ls IH]; intros i Hall; [done|].
  simpl. pose proof (Hall 0 l eq_refl) as H0.
  rewrite Nat.add_0_r in H0. rewrite H0, IH; [done|].
  intros j l' Hj. replace (S i + j) with (i + S j) by lia. by apply Hall.
Qed.

Lemma _invokeDefault_calls (self : Server) (socket : Socket) :
  _invokeDefault self socket =
  run ((λ l, listener_call l socket) <$> listeners (_spdyState self)) (returned ()).
Proof. unfold _invokeDefault. by apply for_loop_listeners. Qed.

(** [_init] saves the base's listeners as it found them. *)
Lemma _init_returned (base : Base) (opts : Options) (handler : option Listener)
  (self : Server) :
  result (_init base opts handler) = returned self →
  options (_spdyState self) = default no_spdy_options (spdy opts) ∧
  secure (_spdyState self) = instanceof_tls_Server base ∧
  listeners (_spdyState self) = base_listeners base (connection_event self) ∧
  listeners (_spdyState self) ≠ [] ∧
  connection_entry self =
    (if truthy (opt_plain (default no_spdy_options (spdy opts)))
     then entry_onPlainConnection else entry_onConnection).
Proof.
  unfold _init. cbv zeta.
  destruct (instanceof_tls_Server base); simpl;
    case_bool_decide as Hlen; simpl; try done;
    intros [= <-]; simpl; repeat split; try done;
    intros Hnil; rewrite Hnil in Hlen; simpl in Hlen; lia.
Qed.

(** ** Pass-through to the default handlers *)

(** C6.  When the identifier [_handleConnection] settles on (its
    argument, or the configured default when that is falsy) is falsy,
    ['http/1.1'] or ['http/1.0'], no session is constructed: the
    socket it was given goes, as it is, to every listener saved by
    [_init], in the order the base had registered them. *)
Theorem passthrough_to_default_listeners
  (base : Base) (opts : Options) (handler : option Listener) (self : Server)
  (socket : Socket) (protocol : value) :
  result (_init base opts handler) = returned self →
  let resolved :=
    if truthy protocol then protocol else opt_protocol (options (_spdyState self)) in
  truthy resolved = false ∨ resolved = str "http/1.1" ∨ resolved = str "http/1.0" →
  _handleConnection self socket protocol =
  run (debug "incoming socket protocol=%j" [resolved]
       :: debug "to default handler it goes" []
       :: ((λ l, listener_call l socket) <$> base_listeners base (connection_event self)))
      (returned ()).
Proof.
  intros Hinit resolved Hpass.
  apply _init_returned in Hinit as (_ & _ & <- & _).
  unfold _handleConnection. cbv zeta.
  assert (Hres : (if negb (truthy protocol)
                  then opt_protocol (options (_spdyState self)) else protocol)
                 = resolved).
  { subst resolved. by destruct (truthy protocol). }
  rewrite Hres.
  assert (Htest : negb (truthy resolved) || strict_eq resolved (str "http/1.1")
                  || strict_eq resolved (str "http/1.0") = true).
  { destruct Hpass as [-> | [-> | ->]]; [done | done | done]. }
  rewrite Htest, _invokeDefault_calls. done.
Qed.

(** A secured server whose client negotiated ['http/1.1'], and one
    whose client negotiated nothing. *)
Lemma passthrough_to_default_listeners_witness :
  _handleConnection secure_server (tls_socket 3 (str "http/1.1")) (str "http/1.1")
  = run [debug "incoming socket protocol=%j" [str "http/1.1"];
         debug "to default handler it goes" [];
         listener_call 20 (tls_socket 3 (str "http/1.1"));
         listener_call 21 (tls_socket 3 (str "http/1.1"))] (returned ()) ∧
  sessions (trace (_handleConnection secure_server (tls_socket 4 undefined) undefined))
  = [].
Proof.
  split.
  - apply (passthrough_to_default_listeners https_Server no_options None secure_server
             (tls_socket 3 (str "http/1.1")) (str "http/1.1")).
    + reflexivity.
    + right. left. reflexivity.
  - rewrite (passthrough_to_default_listeners https_Server no_options None secure_server
               (tls_socket 4 undefined) undefined).
    + reflexivity.
    + reflexivity.
    + left. reflexivity.
Defined.

(** ** The stream adapter *)

Section Adapter.

Variable net_Socket : Handle → bool → Socket.

(** The whole of [_onStream]: the socket as the handle first sees it
    and as the listeners see it, and the order of the calls. *)
Lemma _onStream_calls (self : Server) (stream : Stream) :
  let handle := {| getStream := stream |} in
  let made := net_Socket handle true in
  let assigned :=
    {| fd := fd made; _handle := _handle made; allowHalfOpen := allowHalfOpen made;
       encrypted := boolean true; readable := readable made; writable := writable made;
       npnProtocol := npnProtocol made; alpnProtocol := alpnProtocol made |} in
  let socket :=
    {| fd := fd made; _handle := _handle made; allowHalfOpen := allowHalfOpen made;
       encrypted := boolean true; readable := true; writable := true;
       npnProtocol := npnProtocol made; alpnProtocol := alpnProtocol made |} in
  _onStream net_Socket self stream =
  run ([spdy_handle_create stream; net_Socket_new handle true;
        handle_assignSocket handle assigned]
       ++ ((λ l, listener_call l socket) <$> listeners (_spdyState self))
       ++ [handle_emitRequest handle])
      (returned ()).
Proof.
  intros handle made assigned socket.
  unfold _onStream. cbv zeta. simpl.
  rewrite _invokeDefault_calls. done.
Qed.

(** C7.  [_onStream] builds the adapter for the stream (a handle on
    that stream, and the socket the host constructs on that handle)
    and hands this socket to every saved listener before it calls
    [emitRequest] on the same handle, which is the last call it makes.
    The socket the listeners receive is the constructed one with
    [readable] and [writable] set to [true], whatever the host's
    constructor had left there. *)
Theorem adapter_registered_before_emitRequest (self : Server) (stream : Stream) :
  let handle := {| getStream := stream |} in
  let made := net_Socket handle true in
  let assigned :=
    {| fd := fd made; _handle := _handle made; allowHalfOpen := allowHalfOpen made;
       encrypted := boolean true; readable := readable made; writable := writable made;
       npnProtocol := npnProtocol made; alpnProtocol := alpnProtocol made |} in
  let socket :=
    {| fd := fd made; _handle := _handle made; allowHalfOpen := allowHalfOpen made;
       encrypted := boolean true; readable := true; writable := true;
       npnProtocol := npnProtocol made; alpnProtocol := alpnProtocol made |} in
  readable socket = true ∧ writable socket = true ∧
  result (_onStream net_Socket self stream) = returned () ∧
  trace (_onStream net_Socket self stream) =
    [spdy_handle_create stream;
     net_Socket_new handle true;
     handle_assignSocket handle assigned]
    ++ ((λ l, listener_call l socket) <$> listeners (_spdyState self))
    ++ [handle_emitRequest handle] ∧
  (∀ i j l s h,
     trace (_onStream net_Socket self stream) !! i = Some (listener_call l s) →
     trace (_onStream net_Socket self stream) !! j = Some (handle_emitRequest h) →
     s = socket ∧ h = handle ∧ i < j).
Proof.
  intros handle made assigned socket.
  rewrite _onStream_calls. fold handle made assigned socket. cbn [trace result].
  split_and!; [done | done | done | done |].
  intros i j l s h Hi Hj.
  set (calls := (λ l, listener_call l socket) <$> listeners (_spdyState self)) in *.
  assert (Hcall : ∀ k e, calls !! k = Some e → ∃ l', e = listener_call l' socket).
  { intros k e Hk. subst calls. apply list_lookup_fmap_Some in Hk as (l' & -> & _).
    by exists l'. }
  destruct i as [|[|[|i]]]; simpl in Hi; try done.
  destruct j as [|[|[|j]]]; simpl in Hj; try done.
  destruct (decide (i < length calls)) as [Hlt|Hge].
  - rewrite lookup_app_l in Hi by done.
    destruct (Hcall _ _ Hi) as (l' & [= _ ->]).
    destruct (decide (j < length calls)) as [Hjlt|Hjge].
    + rewrite lookup_app_l in Hj by done. by destruct (Hcall _ _ Hj) as (? & ?).
    + rewrite lookup_app_r in Hj by lia.
      destruct (j - length calls) as [|n] eqn:Hn; simpl in Hj; [|done].
      injection Hj as <-. split_and!; [done | done | lia].
  - rewrite lookup_app_r in Hi by lia.
    destruct (i - length calls) as [|n]; simpl in Hi; done.
Qed.

(** C10.  The adapter socket [_onStream] builds for a stream has
    [encrypted] set to [true] on every server, secured or not, and
    whatever the host's constructor had put there: the socket is
    requested from the host on the stream's handle, the handle is
    assigned that socket already marked encrypted, and every saved
    listener receives that socket and no other. *)
Theorem adapter_encrypted_unconditionally (self : Server) (stream : Stream) :
  let handle := {| getStream := stream |} in
  let made := net_Socket handle true in
  let t := trace (_onStream net_Socket self stream) in
  let marked (socket : Socket) :=
    encrypted socket = boolean true ∧
    fd socket = fd made ∧ _handle socket = _handle made ∧
    allowHalfOpen socket = allowHalfOpen made ∧
    npnProtocol socket = npnProtocol made ∧
    alpnProtocol socket = alpnProtocol made in
  net_Socket_new handle true ∈ t ∧
  (∃ socket, handle_assignSocket handle socket ∈ t ∧ marked socket) ∧
  (∀ h socket, handle_assignSocket h socket ∈ t → h = handle ∧ marked socket) ∧
  (∀ l, l ∈ listeners (_spdyState self) →
        ∃ socket, listener_call l socket ∈ t ∧ marked socket) ∧
  (∀ l socket, listener_call l socket ∈ t →
               l ∈ listeners (_spdyState self) ∧ marked socket).
Proof.
  intros handle made t marked. subst t marked. cbv beta.
  rewrite _onStream_calls. fold handle made. cbn [trace].
  split_and!.
  - apply list_elem_of_further, list_elem_of_here.
  - eexists. split; [do 2 apply list_elem_of_further; apply list_elem_of_here|].
    by split_and!.
  - intros h socket Hin.
    rewrite elem_of_app, !elem_of_cons, elem_of_app, list_elem_of_fmap,
      list_elem_of_singleton in Hin.
    destruct Hin as [[?|[?|[[= -> ->]|[]%elem_of_nil]]]|[(l' & ? & _)|?]]; try done; try by split_and!.
  - intros l Hl. eexists. split.
    + apply elem_of_app. right. apply elem_of_app. left.
      apply list_elem_of_fmap. by exists l.
    + by split_and!.
  - intros l socket Hin.
    rewrite elem_of_app, !elem_of_cons, elem_of_app, list_elem_of_fmap,
      list_elem_of_singleton in Hin.
    destruct Hin as [[?|[?|[?|[]%elem_of_nil]]]|[(l' & [= -> ->] & Hl')|?]]; try done; try by split_and!.
Qed.

End Adapter.

(** A stream on a server whose connections are plaintext, on a host
    whose constructor leaves [encrypted] undefined. *)
Lemma adapter_encrypted_unconditionally_witness :
  secure (_spdyState plain_server) = false ∧
  encrypted (closed_net_Socket {| getStream := stream_1 |} true) = undefined ∧
  ∃ socket,
    listener_call 11 socket ∈ trace (_onStream closed_net_Socket plain_server stream_1) ∧
    encrypted socket = boolean true ∧
    _handle socket = spdy_handle {| getStream := stream_1 |}.
Proof.
  split; [reflexivity|]. split; [reflexivity|].
  destruct (adapter_encrypted_unconditionally closed_net_Socket plain_server stream_1)
    as (_ & _ & _ & Hall & _).
  destruct (Hall 11) as (socket & Hin & Henc & _ & Hhandle & _).
  { vm_compute. repeat constructor. }
  exists socket. split_and!; [exact Hin | exact Henc | exact Hhandle].
Defined.

(** ** The request shim *)

(** C8, as the code has it.  The shim acts on the ['request'] event
    only: a pair of any other event goes to the base emitter as it
    is.  On ['request'], when the request's socket handle is not a
    stream handle, the request is marked [isSpdy = false],
    [spdyVersion = 1] and the pair goes on with the response
    untouched.  When it is one, the handle is read from the request's
    [connection] (the same socket, as the host builds requests): the
    request is marked [isSpdy = true] with the version the session of
    that handle's stream reports, the response gets the stream-routed
    [writeHead], [end] and [push], and the handle is given the request
    and then the response before the pair goes on. *)
Theorem emit_request_shim
  (self : Server) (name : string) (req : Request) (res : Response) :
  (name ≠ "request" →
   emit self name req res = run [EventEmitter_emit name req res] (returned ())) ∧
  (name = "request" →
   instanceof_spdy_handle (_handle (req_socket req)) = false →
   emit self name req res =
   run [debug "not spdy req/res" [];
        EventEmitter_emit "request"
          {| req_id := req_id req; req_socket := req_socket req;
             req_connection := req_connection req;
             isSpdy := boolean false; spdyVersion := number 1 |}
          res]
       (returned ())) ∧
  (∀ handle,
     name = "request" →
     instanceof_spdy_handle (_handle (req_socket req)) = true →
     _handle (req_connection req) = spdy_handle handle →
     let req' :=
       {| req_id := req_id req; req_socket := req_socket req;
          req_connection := req_connection req;
          isSpdy := boolean true;
          spdyVersion := getVersion (stream_connection (getStream handle)) |} in
     let res' :=
       {| res_id := res_id res;
          writeHead := Some spdy_response_writeHead;
          end_ := Some spdy_response_end;
          push := Some spdy_response_push |} in
     emit self name req res =
     run [debug "override req/res" [];
          handle_assignRequest handle req';
          handle_assignResponse handle res';
          EventEmitter_emit "request" req' res']
         (returned ())).
Proof.
  split_and!.
  - intros Hname. unfold emit.
    by destruct (String.eqb_spec name "request").
  - intros -> Hnot. unfold emit. simpl. by rewrite Hnot.
  - intros handle -> Hsocket Hconn req' res'. subst req' res'.
    unfold emit. simpl. by rewrite Hsocket, Hconn.
Qed.

(** A request parsed on a plain socket, one parsed on an adapter
    socket of a session at version 3.1, and a ['checkContinue'] pair. *)
Lemma emit_request_shim_witness :
  emit secure_server "request" (request_on (tcp_socket 5)) response_1 =
  run [debug "not spdy req/res" [];
       EventEmitter_emit "request"
         {| req_id := 1; req_socket := tcp_socket 5; req_connection := tcp_socket 5;
            isSpdy := boolean false; spdyVersion := number 1 |}
         response_1]
      (returned ()) ∧
  emit secure_server "request"
    (request_on (closed_net_Socket {| getStream := stream_1 |} true)) response_1 =
  run [debug "override req/res" [];
       handle_assignRequest {| getStream := stream_1 |}
         {| req_id := 1;
            req_socket := closed_net_Socket {| getStream := stream_1 |} true;
            req_connection := closed_net_Socket {| getStream := stream_1 |} true;
            isSpdy := boolean true; spdyVersion := number 3.1 |};
       handle_assignResponse {| getStream := stream_1 |}
         {| res_id := 1; writeHead := Some spdy_response_writeHead;
            end_ := Some spdy_response_end; push := Some spdy_response_push |};
       EventEmitter_emit "request"
         {| req_id := 1;
            req_socket := closed_net_Socket {| getStream := stream_1 |} true;
            req_connection := closed_net_Socket {| getStream := stream_1 |} true;
            isSpdy := boolean true; spdyVersion := number 3.1 |}
         {| res_id := 1; writeHead := Some spdy_response_writeHead;
            end_ := Some spdy_response_end; push := Some spdy_response_push |}]
      (returned ()) ∧
  emit secure_server "checkContinue"
    (request_on (closed_net_Socket {| getStream := stream_1 |} true)) response_1 =
  run [EventEmitter_emit "checkContinue"
         (request_on (closed_net_Socket {| getStream := stream_1 |} true)) response_1]
      (returned ()).
Proof.
  split_and!.
  - destruct (emit_request_shim secure_server "request" (request_on (tcp_socket 5))
                response_1) as (_ & Hplain & _).
    apply Hplain; reflexivity.
  - destruct (emit_request_shim secure_server "request"
                (request_on (closed_net_Socket {| getStream := stream_1 |} true))
                response_1) as (_ & _ & Hadapter).
    apply (Hadapter {| getStream := stream_1 |}); reflexivity.
  - destruct (emit_request_shim secure_server "checkContinue"
                (request_on (closed_net_Socket {| getStream := stream_1 |} true))
                response_1) as (Hother & _).
    apply Hother. discriminate.
Defined.

(** C8, as specified, fails.  The host also delivers request/response
    pairs with ['checkContinue']; [emit] passes such a pair on as it
    is, so a pair on an adapter socket reaches the application
    unmarked, with the response's own [writeHead] and [end] and with
    no call on the handle, and a pair on a plain socket is not marked
    "version 1" either. *)
Lemma emit_shim_counterexample :
  let adapter := closed_net_Socket {| getStream := stream_1 |} true in
  let t := trace (emit secure_server "checkContinue" (request_on adapter) response_1) in
  let t' := trace (emit secure_server "checkContinue" (request_on (tcp_socket 5))
                     response_1) in
  t = [EventEmitter_emit "checkContinue" (request_on adapter) response_1] ∧
  ¬ shim_as_specified (request_on adapter) response_1 t ∧
  ¬ shim_as_specified (request_on (tcp_socket 5)) response_1 t'.
Proof.
  intros adapter t t'. split_and!.
  - reflexivity.
  - intros Hspec.
    destruct (Hspec "checkContinue" (request_on adapter) response_1) as [Hmarked _].
    + vm_compute. repeat constructor.
    + discriminate Hmarked.
  - intros Hspec.
    destruct (Hspec "checkContinue" (request_on (tcp_socket 5)) response_1)
      as [Hmarked _].
    + vm_compute. repeat constructor.
    + discriminate Hmarked.
Qed.

(** Other events go to the base emitter with their arguments as they are. *)
Lemma emit_other_event (self : Server) (name : string) (req : Request) (res : Response) :
  name ≠ "request" →
  emit self name req res = run [EventEmitter_emit name req res] (returned ()).
Proof.
  intros Hne. unfold emit.
  destruct (String.eqb_spec name "request"); [done|]. done.
Qed.

(** ** The session bootstrapper *)

(** [===] against a string literal holds for that string only. *)
Lemma strict_eq_str (v : value) (s : string) :
  strict_eq v (str s) = true ↔ v = str s.
Proof.
  destruct v; simpl; try (split; [done | intros [=]]).
  rewrite String.eqb_eq. split; [by intros -> | by intros [= ->]].
Qed.

Lemma prefix_append (s t : string) :
  String.prefix s t = true ↔ ∃ b, t = s +:+ b.
Proof.
  revert t. induction s as [|a s IH]; intros t.
  - destruct t; simpl; split; eauto.
  - destruct t as [|a' t]; simpl; [split; [done | by intros [b [=]]]|].
    destruct (Ascii.ascii_dec a a') as [->|Hne].
    + rewrite IH. split; [by intros [b ->]; exists b | by intros [b [= ->]]; exists b].
    + split; [done | intros [b [= ? _]]; done].
Qed.

(** [/spdy/.test] and the like accept exactly the strings that hold
    the pattern somewhere. *)
Lemma occurs_spec (s t : string) :
  occurs s t = true ↔ ∃ a b, t = a +:+ s +:+ b.
Proof.
  induction t as [|c t IH]; cbn [occurs].
  - rewrite orb_false_r, prefix_append. split.
    + intros [b Hb]. by exists "", b.
    + intros (a & b & Hab). destruct a as [|? a]; [by exists b | done].
  - rewrite orb_true_iff, prefix_append, IH. split.
    + intros [[b Hb] | (a & b & ->)]; [by exists "", b | by exists (String c a), b].
    + intros (a & b & Hab). destruct a as [|c' a]; [left; by exists b|].
      right. injection Hab as -> ->. by exists a, b.
Qed.

(** Listener calls construct no session and run no sniffer. *)
Lemma sessions_listener_calls (ls : list Listener) (socket : Socket) :
  sessions ((λ l, listener_call l socket) <$> ls) = [].
Proof. by induction ls. Qed.

Lemma sniffed_listener_calls (ls : list Listener) (socket : Socket) :
  sniffed ((λ l, listener_call l socket) <$> ls) = [].
Proof. by induction ls. Qed.

Lemma governing_listener_calls (ls : list Listener) (socket : Socket) :
  governing ((λ l, listener_call l socket) <$> ls) = [].
Proof. by induction ls. Qed.

Section Bootstrap.

Variable net_Socket : Handle → bool → Socket.

(** C9.  Whenever [_handleConnection] constructs a session, it
    registers exactly one ['error'] observer on it, and a session error
    (whatever it carries) runs that observer to a single call:
    [destroy] on the socket the session was built on.  Nothing else
    is done to the session or the socket. *)
Theorem session_error_destroys_socket
  (self : Server) (socket : Socket) (protocol : value) (c : Connection) :
  let t := trace (_handleConnection self socket protocol) in
  c ∈ sessions t →
  sessions t = [c] ∧
  conn_socket c = socket ∧
  connection_listeners t c "error" = [cb_destroy socket] ∧
  ∀ message,
    session_error net_Socket self t c message = run [socket_destroy socket] (returned ()).
Proof.
  unfold _handleConnection, session_error. cbv zeta.
  set (resolved := if negb (truthy protocol) then _ else protocol).
  destruct (negb (truthy resolved) || _ || _) eqn:Hpass.
  - rewrite _invokeDefault_calls. simpl.
    rewrite sessions_listener_calls. by intros ?%elem_of_nil.
  - set (c0 := {| conn_socket := socket |}).
    destruct (strict_eq resolved (str "http2"));
      [|destruct (strict_eq resolved (str "spdy/3.1"));
        [|destruct (strict_eq resolved (str "spdy/3"));
          [|destruct (strict_eq resolved (str "spdy/2"))]]];
      simpl; intros ->%list_elem_of_singleton;
      rewrite ?(bool_decide_eq_true_2 (c0 = c0 ∧ "error" = "error")) by done;
      rewrite ?(bool_decide_eq_false_2 (c0 = c0 ∧ "stream" = "error"))
        by (by intros [_ ?]);
      done.
Qed.

End Bootstrap.

(** The session of a secured connection that negotiated ['spdy/3.1']. *)
Lemma session_error_destroys_socket_witness :
  let socket := tls_socket 3 (str "spdy/3.1") in
  let c := {| conn_socket := socket;
              conn_options := {[ "protocol" := str "spdy"; "isServer" := boolean true ]} |} in
  let t := trace (_handleConnection secure_server socket (str "spdy/3.1")) in
  c ∈ sessions t ∧
  session_error closed_net_Socket secure_server t c (str "protocol error")
  = run [socket_destroy socket] (returned ()).
Proof.
  intros socket c t.
  assert (Hin : c ∈ sessions t) by (vm_compute; repeat constructor).
  split; [exact Hin|].
  apply (session_error_destroys_socket closed_net_Socket secure_server socket
           (str "spdy/3.1") c Hin).
Defined.

(** The versions handed to the session for the identifiers the
    bootstrapper compares against. *)
Lemma known_identifiers_pinned (self : Server) (socket : Socket) :
  let family_options family :=
    _extend {[ "protocol" := str family; "isServer" := boolean true ]}
            (default ∅ (opt_connection (options (_spdyState self)))) in
  let session family := {| conn_socket := socket; conn_options := family_options family |} in
  let pinned identifier family :=
    pinned_versions (trace (_handleConnection self socket (str identifier)))
                    (session family) in
  pinned "spdy/3.1" "spdy" = [3.1%Q] ∧
  pinned "spdy/3" "spdy" = [3%Q] ∧
  pinned "spdy/2" "spdy" = [2%Q] ∧
  pinned "http2" "http2" = [4%Q].
Proof.
  intros family_options session pinned. subst pinned.
  unfold _handleConnection. simpl. fold (family_options "spdy") (family_options "http2").
  fold (session "spdy") (session "http2").
  rewrite !bool_decide_eq_true_2 by done. done.
Qed.

(** An identifier that is none of the four compared against, and does
    not pass through, gets a session with no version. *)
Lemma other_identifiers_unpinned (self : Server) (socket : Socket) (protocol : string)
  (c : Connection) :
  protocol ∉ ["" ; "http/1.1"; "http/1.0"; "http2"; "spdy/3.1"; "spdy/3"; "spdy/2"] →
  let t := trace (_handleConnection self socket (str protocol)) in
  sessions t =
    [{| conn_socket := socket;
        conn_options :=
          _extend {[ "protocol" := str (if occurs "spdy" protocol then "spdy" else "http2");
                     "isServer" := boolean true ]}
                  (default ∅ (opt_connection (options (_spdyState self)))) |}] ∧
  pinned_versions t c = [].
Proof.
  intros Hnot t. subst t. unfold _handleConnection. cbv zeta. simpl.
  repeat (match goal with
          | |- context [String.eqb protocol ?s] =>
              destruct (String.eqb_spec protocol s) as [->|_];
              [exfalso; apply Hnot; repeat constructor|]
          end; simpl).
  done.
Qed.

(** C1.  The identifier the server advertises and the sniffer answers
    for HTTP/2 is ['h2'].  Handed ['h2'], [_handleConnection] builds a
    session of the ['http2'] family and registers its observers, but
    never calls [start]: no version is pinned.  Only the literal
    ['http2'], which neither the advertised list nor the sniffer
    produces, gets version 4. *)
Theorem h2_session_left_unpinned (self : Server) (socket : Socket) :
  let c := {| conn_socket := socket;
              conn_options :=
                _extend {[ "protocol" := str "http2"; "isServer" := boolean true ]}
                        (default ∅ (opt_connection (options (_spdyState self)))) |} in
  ("h2" ∈ default_protocols) ∧ ("http2" ∉ default_protocols) ∧
  sniff PREFACE_BUFFER = (null, str "h2") ∧
  trace (_handleConnection self socket (str "h2")) =
    [debug "incoming socket protocol=%j" [str "h2"];
     transport_connection_create c;
     connection_on c "error" (cb_destroy socket);
     connection_on c "stream" cb_stream] ∧
  pinned_versions (trace (_handleConnection self socket (str "h2"))) c = [] ∧
  pinned_versions (trace (_handleConnection self socket (str "http2"))) c = [4%Q].
Proof.
  intros c. split; [|split; [|split; [|split; [|split]]]].
  - compute_done.
  - compute_done.
  - reflexivity.
  - reflexivity.
  - reflexivity.
  - unfold _handleConnection. simpl. fold c.
    by rewrite bool_decide_eq_true_2.
Qed.

(** ** The negotiation resolver *)

(** The filter hands its callback [null] and the classification, and
    nothing else depends on the callback. *)
Lemma preface_loop_callback {R : Type} (callback : value → value → R)
  (data : list byte) (n i : nat) :
  preface_loop data callback n i =
  (λ r : value * value, callback r.1 r.2) <$> preface_loop data (λ e p, (e, p)) n i.
Proof.
  revert i. induction n as [|n IH]; intros i; simpl; [done|].
  by case_bool_decide.
Qed.

Lemma hoseFilter_sniff {R : Type} (callback : value → value → R) (data : list byte) :
  hoseFilter data callback = callback null (sniff data).2 ∧ (sniff data).1 = null.
Proof.
  unfold sniff, hoseFilter.
  case_bool_decide; [done|]. case_bool_decide; [done|]. cbv zeta.
  rewrite (preface_loop_callback callback).
  destruct (preface_loop data (λ e p, (e, p)) _ 0) as [r|] eqn:E; simpl.
  - by apply preface_loop_Some in E as ->.
  - by case_bool_decide.
Qed.

(** What [_handleConnection] shows of the resolver: it returns, never
    sniffs, and reports the identifier it settled on. *)
Lemma _handleConnection_observed (self : Server) (socket : Socket) (protocol : value) :
  let m := _handleConnection self socket protocol in
  result m = returned () ∧
  sniffed (trace m) = [] ∧
  governing (trace m) =
    [if truthy protocol then protocol else opt_protocol (options (_spdyState self))].
Proof.
  unfold _handleConnection. cbv zeta.
  replace (if negb (truthy protocol) then opt_protocol (options (_spdyState self))
           else protocol)
    with (if truthy protocol then protocol else opt_protocol (options (_spdyState self)))
    by (by destruct (truthy protocol)).
  set (resolved := if truthy protocol then protocol else _).
  destruct (negb (truthy resolved) || _ || _).
  - rewrite _invokeDefault_calls. simpl.
    by rewrite sniffed_listener_calls, governing_listener_calls.
  - destruct (strict_eq resolved (str "http2"));
      [|destruct (strict_eq resolved (str "spdy/3.1"));
        [|destruct (strict_eq resolved (str "spdy/3"));
          [|destruct (strict_eq resolved (str "spdy/2"))]]];
      done.
Qed.

Section Resolver.

Variable net_Socket : Handle → bool → Socket.

(** A hose with the server's ['select'] listener runs the filter as
    [peek] says and hands the first classification to
    [_handleConnection], where it governs. *)
Lemma hose_data_peek (self : Server) (socket : Socket) (on_error : list callback)
  (buffer : list byte) (chunks : list (list byte)) :
  let t := trace (hose_data net_Socket self socket [cb_select] on_error buffer chunks) in
  sniffed t = (peek buffer chunks).1 ∧
  governing t =
    (if truthy (peek buffer chunks).2 then [(peek buffer chunks).2] else []).
Proof.
  revert buffer. induction chunks as [|chunk chunks IH]; intros buffer; [done|].
  cbn [hose_data peek]. cbv zeta.
  destruct (hoseFilter_sniff
              (λ err protocol,
                 if truthy err
                 then emit_to net_Socket self on_error (args_error err)
                 else if truthy protocol
                      then emit_to net_Socket self [cb_select]
                             (args_select protocol socket)
                      else hose_data net_Socket self socket [cb_select] on_error
                             (buffer ++ chunk) chunks)
              (buffer ++ chunk)) as [-> _].
  cbn [truthy]. destruct (truthy (sniff (buffer ++ chunk)).2) eqn:Hdef.
  - destruct (_handleConnection_observed self socket (sniff (buffer ++ chunk)).2)
      as (Hres & Hsniffed & Hgov).
    rewrite Hdef in Hgov.
    cbn [emit_to run_callback].
    destruct (_handleConnection self socket (sniff (buffer ++ chunk)).2) as [tm rm].
    simpl in Hres, Hsniffed, Hgov. subst rm. simpl.
    unfold sniffed, governing in *.
    rewrite !omap_app, Hsniffed, Hgov. simpl. by rewrite Hdef.
  - specialize (IH (buffer ++ chunk)). cbv zeta in IH.
    destruct IH as [IHs IHg].
    destruct (peek (buffer ++ chunk) chunks) as [buffers p]. simpl in *.
    unfold sniffed, governing in *. simpl. by rewrite IHs, IHg.
Qed.

(** C2, as the code has it.  Which rules apply is fixed when the
    server is built, by its [plain] option.  Without it the sniffer is
    never run: a secured server uses the negotiation result
    ([npnProtocol], else [alpnProtocol]) when there is one, and in
    every other case the configured default decides (no protocol when
    there is none).  With it the sniffer runs on every accepted
    connection, on each cumulative buffer up to its first
    classification, and that classification governs, whatever was
    negotiated or configured. *)
Theorem resolver_rule_order
  (base : Base) (opts : Options) (handler : option Listener) (self : Server)
  (socket : Socket) (chunks : list (list byte)) :
  result (_init base opts handler) = returned self →
  let t := trace (accept net_Socket self socket chunks) in
  let spdy_options := default no_spdy_options (spdy opts) in
  let negotiated := JS.or (npnProtocol socket) (alpnProtocol socket) in
  if truthy (opt_plain spdy_options)
  then sniffed t = (peek [] chunks).1 ∧
       governing t =
         (if truthy (peek [] chunks).2 then [(peek [] chunks).2] else [])
  else sniffed t = [] ∧
       governing t =
         [if instanceof_tls_Server base && truthy negotiated
          then negotiated else opt_protocol spdy_options].
Proof.
  intros Hinit t spdy_options negotiated. subst t spdy_options negotiated.
  apply _init_returned in Hinit as (Hopts & Hsecure & _ & _ & Hentry).
  unfold accept. rewrite Hentry.
  destruct (truthy (opt_plain (default no_spdy_options (spdy opts)))).
  - unfold _onPlainConnection, hose_listeners. simpl.
    rewrite (bool_decide_eq_true_2 (socket = socket ∧ "select" = "select")) by done.
    rewrite (bool_decide_eq_false_2 (socket = socket ∧ "error" = "select"))
      by (by intros [_ ?]).
    apply (hose_data_peek self socket _ [] chunks).
  - unfold _onConnection. rewrite Hsecure.
    destruct (_handleConnection_observed self socket
                (if instanceof_tls_Server base
                 then JS.or (npnProtocol socket) (alpnProtocol socket)
                 else undefined))
      as (_ & Hsniffed & Hgov).
    split; [done|]. rewrite Hgov, Hopts.
    by destruct (instanceof_tls_Server base),
         (truthy (JS.or (npnProtocol socket) (alpnProtocol socket))) eqn:E;
      simpl; rewrite ?E.
Qed.

End Resolver.

(** A plain-mode server receiving the preface in two writes of 10 and
    14 bytes, and a secured server whose client negotiated ['spdy/3.1']. *)
Lemma resolver_rule_order_witness :
  (let t := trace (accept closed_net_Socket plain_server (tcp_socket 1)
                     [take 10 PREFACE_BUFFER; drop 10 PREFACE_BUFFER]) in
   sniffed t = [take 10 PREFACE_BUFFER; PREFACE_BUFFER] ∧
   governing t = [str "h2"]) ∧
  (let t := trace (accept closed_net_Socket secure_server
                     (tls_socket 2 (str "spdy/3.1")) [GET_line]) in
   sniffed t = [] ∧ governing t = [str "spdy/3.1"]).
Proof.
  split.
  - exact (resolver_rule_order closed_net_Socket http_Server plain_options None
             plain_server (tcp_socket 1)
             [take 10 PREFACE_BUFFER; drop 10 PREFACE_BUFFER] eq_refl).
  - exact (resolver_rule_order closed_net_Socket https_Server no_options None
             secure_server (tls_socket 2 (str "spdy/3.1")) [GET_line] eq_refl).
Defined.

(** C2, as specified, fails.  A plaintext server built with
    [{ spdy: { plain: true, protocol: 'spdy/3.1' } }] has a configured
    default, so rule (2) would make ['spdy/3.1'] govern without any
    sniffing; the code sniffs the request line and lets ['http/1.1']
    govern. *)
Lemma rule_order_counterexample :
  result (_init http_Server plain_options None) = returned plain_server ∧
  let t := trace (accept closed_net_Socket plain_server (tcp_socket 1) [GET_line]) in
  sniffed t = [GET_line] ∧
  governing t = [str "http/1.1"] ∧
  ¬ rule_order_as_specified plain_server (tcp_socket 1) [GET_line] t.
Proof.
  split; [reflexivity|].
  split; [reflexivity|]. split; [reflexivity|].
  unfold rule_order_as_specified. cbn.
  intros [Hgov _]. vm_compute in Hgov. discriminate Hgov.
Qed.

(** * Further properties of the code *)

(** ** The sniffer, case by case *)

(** A return from inside the loop comes from a position that differs. *)
Lemma preface_loop_found {R : Type} (callback : value → value → R)
  (data : list byte) (n i : nat) (r : R) :
  preface_loop data callback n i = Some r →
  ∃ k, i ≤ k < i + n ∧ data !! k ≠ PREFACE_BUFFER !! k.
Proof.
  revert i. induction n as [|n IH]; intros i; simpl; [done|].
  case_bool_decide as Hne.
  - intros _. exists i. split; [lia | done].
  - intros (k & Hk & Hdiff)%IH. exists k. split; [lia | done].
Qed.

(** The five ways a buffer can look to [hoseFilter], with its answer
    in each. *)
Lemma sniff_cases (data : list byte) :
  (data = [] ∧ sniff data = (null, null)) ∨
  (data !! 0 = Some x80 ∧ sniff data = (null, str "spdy")) ∨
  (data ≠ [] ∧ data !! 0 ≠ Some x80 ∧
   (∃ k, k < length data ∧ k < 24 ∧ data !! k ≠ PREFACE_BUFFER !! k) ∧
   sniff data = (null, str "http/1.1")) ∨
  (data ≠ [] ∧ data !! 0 ≠ Some x80 ∧
   (∀ j, j < length data → data !! j = PREFACE_BUFFER !! j) ∧
   length data < 24 ∧ sniff data = (null, null)) ∨
  (data !! 0 ≠ Some x80 ∧
   (∀ j, j < 24 → data !! j = PREFACE_BUFFER !! j) ∧
   24 ≤ length data ∧ sniff data = (null, str "h2")).
Proof.
  unfold sniff, hoseFilter.
  case_bool_decide as Hlen.
  { left. split; [|done]. destruct data; [done | simpl in Hlen; lia]. }
  assert (Hne : data ≠ []) by (intros ->; simpl in Hlen; lia).
  case_bool_decide as Hmarker; [right; left; done|].
  right. right. cbv zeta. rewrite PREFACE_BUFFER_length.
  destruct (preface_loop data _ _ 0) as [r|] eqn:Hloop.
  - left. pose proof (preface_loop_Some _ _ _ _ _ Hloop) as ->.
    apply preface_loop_found in Hloop as (k & Hk & Hdiff).
    split_and!; [done | done | exists k; split_and!; [lia | lia | done] | done].
  - right. rewrite preface_loop_None in Hloop.
    case_bool_decide as Hshort.
    + left. split_and!; [done | done | | lia | done].
      intros j Hj. apply Hloop. lia.
    + right. split_and!; [done | | lia | done].
      intros j Hj. apply Hloop. lia.
Qed.

(** X1.  The answer is ['spdy'] exactly for the buffers that start
    with the byte [0x80]. *)
Theorem sniff_spdy_iff (data : list byte) :
  (sniff data).2 = str "spdy" ↔ data !! 0 = Some x80.
Proof.
  destruct (sniff_cases data)
    as [[-> ->] | [[H0 ->] | [(_ & H0 & _ & ->) | [(_ & H0 & _ & _ & ->) | (H0 & _ & _ & ->)]]]];
    simpl; split; done.
Qed.

(** X2.  The answer is ['h2'] exactly for the buffers that start with
    the whole preface; what follows the preface is not looked at. *)
Theorem sniff_h2_iff (data : list byte) :
  (sniff data).2 = str "h2" ↔ ∃ rest, data = PREFACE_BUFFER ++ rest.
Proof.
  split.
  - intros Hh2. exists (drop 24 data).
    destruct (sniff_cases data)
      as [[_ E] | [[_ E] | [(_ & _ & _ & E) | [(_ & _ & _ & _ & E) | (_ & Hall & Hlen & _)]]]];
      try (rewrite E in Hh2; done).
    rewrite <- (take_drop 24 data) at 1. f_equal.
    apply list_eq. intros i. destruct (decide (i < 24)) as [Hi|Hi].
    + rewrite lookup_take_lt by done. by apply Hall.
    + rewrite lookup_take_ge by lia. symmetry. apply lookup_ge_None.
      rewrite PREFACE_BUFFER_length. lia.
  - intros [rest ->].
    destruct (sniff_cases (PREFACE_BUFFER ++ rest))
      as [[E _] | [[E _] | [(_ & _ & (k & _ & Hk & Hdiff) & _) | [(_ & _ & _ & Hlen & _) | (_ & _ & _ & ->)]]]];
      [done | done | | | done].
    + exfalso. apply Hdiff. apply lookup_app_l. by rewrite PREFACE_BUFFER_length.
    + rewrite length_app, PREFACE_BUFFER_length in Hlen. lia.
Qed.

(** X3.  The answer is "need more bytes" exactly for the buffers that
    are a beginning of the preface and not yet all of it. *)
Theorem sniff_null_iff (data : list byte) :
  (sniff data).2 = null ↔ ∃ rest, rest ≠ [] ∧ PREFACE_BUFFER = data ++ rest.
Proof.
  split.
  - intros Hnull.
    destruct (sniff_cases data)
      as [[-> _] | [[_ E] | [(_ & _ & _ & E) | [(_ & _ & Hall & Hlen & _) | (_ & _ & _ & E)]]]];
      try (rewrite E in Hnull; done).
    + by exists PREFACE_BUFFER.
    + exists (drop (length data) PREFACE_BUFFER). split.
      * intros Hnil. apply (f_equal length) in Hnil.
        rewrite length_drop, PREFACE_BUFFER_length in Hnil. simpl in Hnil. lia.
      * rewrite <- (take_drop (length data) PREFACE_BUFFER) at 1. f_equal.
        apply list_eq. intros i. destruct (decide (i < length data)) as [Hi|Hi].
        -- rewrite lookup_take_lt by done. symmetry. by apply Hall.
        -- rewrite lookup_take_ge by lia. symmetry. apply lookup_ge_None. lia.
  - intros (rest & Hrest & Hpre).
    assert (Hlen : length data < 24).
    { apply (f_equal length) in Hpre.
      rewrite length_app, PREFACE_BUFFER_length in Hpre.
      destruct rest; [done | simpl in Hpre; lia]. }
    assert (Hsame : ∀ j, j < length data → data !! j = PREFACE_BUFFER !! j).
    { intros j Hj. rewrite Hpre. symmetry. by apply lookup_app_l. }
    destruct (sniff_cases data)
      as [[_ ->] | [[E _] | [(_ & _ & (k & Hk & _ & Hdiff) & _) | [(_ & _ & _ & _ & ->) | (_ & _ & Hlong & _)]]]];
      [done | | | done | lia].
    + rewrite Hsame in E by (by apply lookup_lt_is_Some; eexists). done.
    + exfalso. by apply Hdiff, Hsame.
Qed.

(** X4.  The answer is ['http/1.1'] exactly for the buffers that do
    not start with [0x80] and differ from the preface at one of their
    first 24 positions. *)
Theorem sniff_http11_iff (data : list byte) :
  (sniff data).2 = str "http/1.1" ↔
  data !! 0 ≠ Some x80 ∧
  ∃ k, k < length data ∧ k < 24 ∧ data !! k ≠ PREFACE_BUFFER !! k.
Proof.
  destruct (sniff_cases data)
    as [[-> ->] | [[H0 ->] | [(_ & H0 & Hk & ->) | [(_ & H0 & Hall & _ & ->) | (H0 & Hall & Hlen & ->)]]]];
    simpl; (split; [try done | intros [Hm (k & Hk1 & Hk2 & Hdiff)]]); try done.
  - simpl in Hk1. lia.
  - exfalso. by apply Hdiff, Hall.
  - exfalso. by apply Hdiff, Hall.
Qed.

(** A protocol, once answered, is the answer for every longer buffer. *)
Lemma sniff_extend (data more : list byte) :
  truthy (sniff data).2 = true → sniff (data ++ more) = sniff data.
Proof.
  intros Hdef.
  destruct (sniff_cases data)
    as [[_ E] | [[H0 E] | [(Hne & H0 & (k & Hk & Hk24 & Hdiff) & E)
       | [(_ & _ & _ & _ & E) | (H0 & Hall & Hlen & E)]]]];
    rewrite E in Hdef |- *; try done; clear Hdef E.
  - assert (Hfirst : (data ++ more) !! 0 = Some x80).
    { rewrite lookup_app_l; [done|]. by apply lookup_lt_is_Some; eexists. }
    destruct (sniff_cases (data ++ more))
      as [[E _] | [[_ E] | [(_ & F & _) | [(_ & F & _) | (F & _)]]]]; try done.
    by rewrite E in Hfirst.
  - assert (Hpos : 0 < length data) by (destruct data; [done | simpl; lia]).
    assert (Hsame : ∀ j, j < length data → (data ++ more) !! j = data !! j).
    { intros j Hj. by apply lookup_app_l. }
    destruct (sniff_cases (data ++ more))
      as [[E _] | [[F _] | [(_ & _ & _ & E) | [(_ & _ & Fall & _) | (_ & Fall & _)]]]].
    + by apply app_eq_nil in E as [-> _].
    + rewrite Hsame in F by done. done.
    + done.
    + exfalso. apply Hdiff. rewrite <- Hsame by done. apply Fall.
      rewrite length_app. lia.
    + exfalso. apply Hdiff. rewrite <- Hsame by done. by apply Fall.
  - assert (Hsame : ∀ j, j < 24 → (data ++ more) !! j = data !! j).
    { intros j Hj. apply lookup_app_l. lia. }
    destruct (sniff_cases (data ++ more))
      as [[E _] | [[F _] | [(_ & _ & (k & _ & Hk & Hdiff) & _)
         | [(_ & _ & _ & Flen & _) | (_ & _ & _ & E)]]]].
    + apply app_eq_nil in E as [-> _]. simpl in Hlen. lia.
    + rewrite Hsame in F by lia. done.
    + exfalso. apply Hdiff. rewrite Hsame by done. by apply Hall.
    + rewrite length_app in Flen. lia.
    + done.
Qed.

(** X5.  Sniffing can be restarted on the growing buffer: once a
    buffer has been given a protocol, no further bytes change it. *)
Theorem sniff_stable_under_more_bytes (data more : list byte) :
  truthy (sniff data).2 = true → sniff (data ++ more) = sniff data.
Proof. apply sniff_extend. Qed.

(** After the marker byte, and after a request line, more bytes change
    nothing. *)
Lemma sniff_stable_under_more_bytes_witness :
  sniff ([x80] ++ GET_line) = sniff [x80] ∧
  sniff (GET_line ++ PREFACE_BUFFER) = sniff GET_line.
Proof.
  split.
  - apply (sniff_stable_under_more_bytes [x80] GET_line). reflexivity.
  - apply (sniff_stable_under_more_bytes GET_line PREFACE_BUFFER). reflexivity.
Defined.

(** X6.  Only the first 24 bytes of a buffer count: the filter gives
    the whole buffer the answer it gives those, and never reports an
    error. *)
Theorem sniff_first_24_bytes (data : list byte) :
  sniff data = sniff (take 24 data) ∧ (sniff data).1 = null.
Proof.
  split; [|apply (hoseFilter_sniff (λ e p, (e, p)))].
  destruct (truthy (sniff (take 24 data)).2) eqn:Hdef.
  - rewrite <- (take_drop 24 data) at 1. by apply sniff_extend.
  - destruct (sniff_cases (take 24 data))
      as [[E _] | [[_ E] | [(_ & _ & _ & E) | [(_ & _ & _ & Hlen & _) | (_ & _ & _ & E)]]]];
      try (rewrite E in Hdef; done).
    + destruct data; [done | done].
    + rewrite length_take in Hlen. by rewrite take_ge by lia.
Qed.

(** ** Construction *)

(** X7.  [_init] calls the base constructor first.  It then throws
    exactly when the base left no listener on its connection event
    (['secureConnection'] for a [tls.Server], ['connection']
    otherwise); when it returns, the server has saved those listeners
    as they were, dispatches on that event, and allows half-open
    requests. *)
Theorem _init_needs_default_listeners
  (base : Base) (opts : Options) (handler : option Listener) :
  let event :=
    if instanceof_tls_Server base then "secureConnection" else "connection" in
  let m := _init base opts handler in
  (∃ actualOptions, head (trace m) = Some (base_call actualOptions)) ∧
  (base_listeners base event = [] →
     result m = thrown "Server does not have default listeners" ∧
     length (trace m) = 1) ∧
  (base_listeners base event ≠ [] →
     ∃ self, result m = returned self ∧
       listeners (_spdyState self) = base_listeners base event ∧
       connection_event self = event ∧
       httpAllowHalfOpen self = true ∧
       request_handlers self = option_list handler).
Proof.
  intros event m. subst event m. unfold _init. cbv zeta.
  destruct (instanceof_tls_Server base); simpl;
    (split; [by eexists|]);
    case_bool_decide as Hlen; simpl;
    (split; [intros Hnil; rewrite Hnil in Hlen; simpl in Hlen; try done; lia|]);
    intros Hne; try (destruct (base_listeners base _); [done | simpl in Hlen; lia]);
    eexists; split_and!; try done; by destruct handler.
Qed.

(** A base without listeners, and [http.Server]. *)
Lemma _init_needs_default_listeners_witness :
  result (_init bare_Server no_options None)
    = thrown "Server does not have default listeners" ∧
  ∃ self, result (_init http_Server plain_options (Some 7)) = returned self ∧
          listeners (_spdyState self) = [10; 11] ∧
          request_handlers self = [7].
Proof.
  split.
  - apply (_init_needs_default_listeners bare_Server no_options None). reflexivity.
  - destruct (_init_needs_default_listeners http_Server plain_options (Some 7))
      as (_ & _ & Hreturns).
    destruct Hreturns as (self & Hres & Hls & _ & _ & Hreq); [done|].
    exists self. split_and!; [exact Hres | exact Hls | exact Hreq].
Defined.

(** ** The default handlers *)

Lemma listener_calls_fmap (ls : list Listener) (socket : Socket) :
  listener_calls ((λ l, listener_call l socket) <$> ls) = (λ l, (l, socket)) <$> ls.
Proof. induction ls as [|l ls IH]; [done|]. simpl. f_equal. exact IH. Qed.

Lemma pinned_versions_listener_calls (ls : list Listener) (socket : Socket)
  (c : Connection) :
  pinned_versions ((λ l, listener_call l socket) <$> ls) c = [].
Proof. by induction ls. Qed.

(** X8.  [_invokeDefault] never reads past the end of the saved list:
    it returns, having called every saved listener exactly once, in
    the order of the list, each with the socket it was given. *)
Theorem invokeDefault_each_listener_once (self : Server) (socket : Socket) :
  let m := _invokeDefault self socket in
  result m = returned () ∧
  length (trace m) = length (listeners (_spdyState self)) ∧
  listener_calls (trace m) = (λ l, (l, socket)) <$> listeners (_spdyState self).
Proof.
  intros m. subst m. rewrite _invokeDefault_calls. simpl.
  split_and!; [done | by rewrite length_fmap | apply listener_calls_fmap].
Qed.

(** ** The bootstrapper, whole *)

(** The two shapes of [_handleConnection]. *)
Lemma _handleConnection_default (self : Server) (socket : Socket) (protocol : value) :
  goes_to_default (resolved_protocol self protocol) = true →
  _handleConnection self socket protocol =
  run (debug "incoming socket protocol=%j" [resolved_protocol self protocol]
       :: debug "to default handler it goes" []
       :: ((λ l, listener_call l socket) <$> listeners (_spdyState self)))
      (returned ()).
Proof.
  unfold goes_to_default, resolved_protocol, _handleConnection. cbv zeta.
  intros ->. by rewrite _invokeDefault_calls.
Qed.

Lemma _handleConnection_session (self : Server) (socket : Socket) (protocol : value) :
  let resolved := resolved_protocol self protocol in
  let c :=
    {| conn_socket := socket;
       conn_options :=
         _extend {[ "protocol" := str (if test_spdy resolved then "spdy" else "http2");
                    "isServer" := boolean true ]}
                 (default ∅ (opt_connection (options (_spdyState self)))) |} in
  goes_to_default resolved = false →
  ∃ starts,
    _handleConnection self socket protocol =
    run ([debug "incoming socket protocol=%j" [resolved];
          transport_connection_create c]
         ++ (connection_start c <$> starts)
         ++ [connection_on c "error" (cb_destroy socket);
             connection_on c "stream" cb_stream])
        (returned ()) ∧
    ((starts = [4%Q] ∧ resolved = str "http2") ∨
     (starts = [3.1%Q] ∧ resolved = str "spdy/3.1") ∨
     (starts = [3%Q] ∧ resolved = str "spdy/3") ∨
     (starts = [2%Q] ∧ resolved = str "spdy/2") ∨
     starts = []).
Proof.
  intros resolved c. subst c.
  unfold goes_to_default, _handleConnection. cbv zeta.
  fold (resolved_protocol self protocol). fold resolved.
  intros ->.
  destruct (strict_eq resolved (str "http2")) eqn:E4;
    [|destruct (strict_eq resolved (str "spdy/3.1")) eqn:E31;
      [|destruct (strict_eq resolved (str "spdy/3")) eqn:E3;
        [|destruct (strict_eq resolved (str "spdy/2")) eqn:E2]]].
  - exists [4%Q]. split; [done|]. left. by apply strict_eq_str in E4.
  - exists [3.1%Q]. split; [done|]. right; left. by apply strict_eq_str in E31.
  - exists [3%Q]. split; [done|]. do 2 right; left. by apply strict_eq_str in E3.
  - exists [2%Q]. split; [done|]. do 3 right; left. by apply strict_eq_str in E2.
  - exists []. split; [done|]. by do 4 right.
Qed.

Lemma sessions_app (t1 t2 : list event) :
  sessions (t1 ++ t2) = sessions t1 ++ sessions t2.
Proof. apply omap_app. Qed.

Lemma listener_calls_app (t1 t2 : list event) :
  listener_calls (t1 ++ t2) = listener_calls t1 ++ listener_calls t2.
Proof. apply omap_app. Qed.

Lemma pinned_versions_app (t1 t2 : list event) (c : Connection) :
  pinned_versions (t1 ++ t2) c = pinned_versions t1 c ++ pinned_versions t2 c.
Proof. apply omap_app. Qed.

Lemma connection_listeners_app (t1 t2 : list event) (c : Connection) (name : string) :
  connection_listeners (t1 ++ t2) c name =
  connection_listeners t1 c name ++ connection_listeners t2 c name.
Proof. apply omap_app. Qed.

Lemma sessions_starts (c : Connection) (starts : list Q) :
  sessions (connection_start c <$> starts) = [].
Proof. by induction starts. Qed.

Lemma listener_calls_starts (c : Connection) (starts : list Q) :
  listener_calls (connection_start c <$> starts) = [].
Proof. by induction starts. Qed.

Lemma pinned_versions_starts (c : Connection) (starts : list Q) :
  pinned_versions (connection_start c <$> starts) c = starts.
Proof.
  induction starts as [|v starts IH]; [done|]. simpl.
  rewrite bool_decide_eq_true_2 by done. simpl. by f_equal.
Qed.

Lemma connection_listeners_starts (c : Connection) (starts : list Q) (name : string) :
  connection_listeners (connection_start c <$> starts) c name = [].
Proof. by induction starts. Qed.

(** X9.  A falsy identifier is replaced by the configured default and
    by nothing else: calling [_handleConnection] without a protocol is
    calling it with [state.options.protocol]. *)
Theorem handleConnection_default_fallback
  (self : Server) (socket : Socket) (protocol : value) :
  truthy protocol = false →
  _handleConnection self socket protocol =
  _handleConnection self socket (opt_protocol (options (_spdyState self))).
Proof.
  intros Hfalsy. unfold _handleConnection. cbv zeta. rewrite Hfalsy.
  replace (if negb (truthy (opt_protocol (options (_spdyState self))))
           then opt_protocol (options (_spdyState self))
           else opt_protocol (options (_spdyState self)))
    with (opt_protocol (options (_spdyState self)))
    by (by destruct (truthy (opt_protocol (options (_spdyState self))))).
  reflexivity.
Qed.

(** No identifier, and the empty one, on a server whose default is
    ['spdy/3.1']. *)
Lemma handleConnection_default_fallback_witness :
  _handleConnection plain_server (tcp_socket 1) undefined =
  _handleConnection plain_server (tcp_socket 1) (str "spdy/3.1") ∧
  _handleConnection plain_server (tcp_socket 1) (str "") =
  _handleConnection plain_server (tcp_socket 1) (str "spdy/3.1").
Proof.
  split.
  - apply (handleConnection_default_fallback plain_server (tcp_socket 1) undefined).
    reflexivity.
  - apply (handleConnection_default_fallback plain_server (tcp_socket 1) (str "")).
    reflexivity.
Defined.

(** X10.  [_handleConnection] always returns, and a socket goes one
    way only: either every saved listener is called with it and no
    session is built, or exactly one session is built on it and no
    listener is called. *)
Theorem handleConnection_session_or_listeners
  (self : Server) (socket : Socket) (protocol : value) :
  let m := _handleConnection self socket protocol in
  result m = returned () ∧
  ((sessions (trace m) = [] ∧
    listener_calls (trace m) = (λ l, (l, socket)) <$> listeners (_spdyState self)) ∨
   (∃ c, sessions (trace m) = [c] ∧ conn_socket c = socket ∧
         listener_calls (trace m) = [])).
Proof.
  intros m. subst m.
  destruct (goes_to_default (resolved_protocol self protocol)) eqn:Hgo.
  - rewrite (_handleConnection_default _ _ _ Hgo). simpl.
    split; [done|]. left.
    by rewrite sessions_listener_calls, listener_calls_fmap.
  - destruct (_handleConnection_session self socket protocol Hgo) as (starts & -> & _).
    cbn [trace result]. split; [done|]. right.
    match goal with
    | |- context [transport_connection_create ?c] => exists c
    end.
    rewrite !sessions_app, !listener_calls_app, sessions_starts, listener_calls_starts.
    done.
Qed.

(** A session in the trace is the one built from the resolved
    identifier, and the socket did not go to the default handlers. *)
Lemma session_built (self : Server) (socket : Socket) (protocol : value) (c : Connection) :
  c ∈ sessions (trace (_handleConnection self socket protocol)) →
  goes_to_default (resolved_protocol self protocol) = false ∧
  c = {| conn_socket := socket;
         conn_options :=
           _extend {[ "protocol" := str (if test_spdy (resolved_protocol self protocol)
                                         then "spdy" else "http2");
                      "isServer" := boolean true ]}
                   (default ∅ (opt_connection (options (_spdyState self)))) |}.
Proof.
  destruct (goes_to_default (resolved_protocol self protocol)) eqn:Hgo.
  - rewrite (_handleConnection_default _ _ _ Hgo). simpl.
    rewrite sessions_listener_calls. by intros ?%elem_of_nil.
  - destruct (_handleConnection_session self socket protocol Hgo) as (starts & -> & _).
    cbn [trace]. rewrite !sessions_app, sessions_starts. simpl.
    by intros ->%list_elem_of_singleton.
Qed.

Lemma pinned_versions_starts_elem (c c' : Connection) (starts : list Q) (v : Q) :
  v ∈ pinned_versions (connection_start c <$> starts) c' → v ∈ starts.
Proof.
  induction starts as [|w starts IH]; [done|]. simpl.
  case_bool_decide; simpl.
  - intros [->|Hin]%elem_of_cons; [apply list_elem_of_here|].
    by apply list_elem_of_further, IH.
  - intros Hin. by apply list_elem_of_further, IH.
Qed.

(** X11.  A session is set up in a fixed order: it is created, then
    handed at most one version, and only after that are its ['error']
    and ['stream'] observers registered, which are the last two calls. *)
Theorem session_setup_order
  (self : Server) (socket : Socket) (protocol : value) (c : Connection) :
  c ∈ sessions (trace (_handleConnection self socket protocol)) →
  ∃ starts,
    length starts ≤ 1 ∧
    trace (_handleConnection self socket protocol) =
      [debug "incoming socket protocol=%j" [resolved_protocol self protocol];
       transport_connection_create c]
      ++ (connection_start c <$> starts)
      ++ [connection_on c "error" (cb_destroy socket);
          connection_on c "stream" cb_stream].
Proof.
  intros [Hgo ->]%session_built.
  destruct (_handleConnection_session self socket protocol Hgo) as (starts & -> & Hstarts).
  exists starts. split; [|done].
  destruct Hstarts as [[-> _] | [[-> _] | [[-> _] | [[-> _] | ->]]]]; simpl; lia.
Qed.

(** The session of a secured connection that negotiated ['spdy/3']. *)
Lemma session_setup_order_witness :
  let socket := tls_socket 3 (str "spdy/3") in
  let c := {| conn_socket := socket;
              conn_options := {[ "protocol" := str "spdy"; "isServer" := boolean true ]} |} in
  ∃ starts,
    length starts ≤ 1 ∧
    trace (_handleConnection secure_server socket (str "spdy/3")) =
      [debug "incoming socket protocol=%j" [str "spdy/3"];
       transport_connection_create c]
      ++ (connection_start c <$> starts)
      ++ [connection_on c "error" (cb_destroy socket);
          connection_on c "stream" cb_stream].
Proof.
  intros socket c.
  apply (session_setup_order secure_server socket (str "spdy/3") c).
  vm_compute. repeat constructor.
Defined.

(** X12.  A version is handed to a session only for one of the four
    exact identifiers the bootstrapper compares against, and it is
    that identifier's version. *)
Theorem pinned_only_for_exact_identifiers
  (self : Server) (socket : Socket) (protocol : value) (c : Connection) (v : Q) :
  v ∈ pinned_versions (trace (_handleConnection self socket protocol)) c →
  let resolved := resolved_protocol self protocol in
  (resolved = str "http2" ∧ v = 4%Q) ∨
  (resolved = str "spdy/3.1" ∧ v = 3.1%Q) ∨
  (resolved = str "spdy/3" ∧ v = 3%Q) ∨
  (resolved = str "spdy/2" ∧ v = 2%Q).
Proof.
  intros Hin resolved. subst resolved.
  destruct (goes_to_default (resolved_protocol self protocol)) eqn:Hgo.
  - rewrite (_handleConnection_default _ _ _ Hgo) in Hin. simpl in Hin.
    rewrite pinned_versions_listener_calls in Hin. by apply elem_of_nil in Hin.
  - destruct (_handleConnection_session self socket protocol Hgo)
      as (starts & Heq & Hstarts).
    rewrite Heq in Hin. cbn [trace] in Hin.
    rewrite !pinned_versions_app in Hin. simpl in Hin. rewrite app_nil_r in Hin.
    apply pinned_versions_starts_elem in Hin.
    destruct Hstarts as [[-> ->] | [[-> ->] | [[-> ->] | [[-> ->] | ->]]]];
      [| | | |by apply elem_of_nil in Hin];
      apply list_elem_of_singleton in Hin as ->; auto.
Qed.

(** The session of a secured connection that negotiated ['spdy/3']. *)
Lemma pinned_only_for_exact_identifiers_witness :
  let socket := tls_socket 3 (str "spdy/3") in
  let c := {| conn_socket := socket;
              conn_options := {[ "protocol" := str "spdy"; "isServer" := boolean true ]} |} in
  3%Q ∈ pinned_versions (trace (_handleConnection secure_server socket (str "spdy/3"))) c ∧
  ((str "spdy/3" = str "http2" ∧ 3%Q = 4%Q) ∨
   (str "spdy/3" = str "spdy/3.1" ∧ 3%Q = 3.1%Q) ∨
   (str "spdy/3" = str "spdy/3" ∧ 3%Q = 3%Q) ∨
   (str "spdy/3" = str "spdy/2" ∧ 3%Q = 2%Q)).
Proof.
  intros socket c.
  assert (Hin : 3%Q ∈ pinned_versions
                  (trace (_handleConnection secure_server socket (str "spdy/3"))) c)
    by (vm_compute; repeat constructor).
  split; [exact Hin|].
  exact (pinned_only_for_exact_identifiers secure_server socket (str "spdy/3") c 3%Q Hin).
Defined.

(** X13.  The session's options are the server's [connection] options
    laid over [{ protocol, isServer: true }]: every key the user set
    wins, also [protocol] and [isServer]; where the user set neither,
    the session is server-side and its family is ['spdy'] when the
    identifier holds "spdy" and ['http2'] otherwise; no other key
    appears. *)
Theorem session_options_override
  (self : Server) (socket : Socket) (protocol : value) (c : Connection) :
  c ∈ sessions (trace (_handleConnection self socket protocol)) →
  let user : gmap string value :=
    default ∅ (opt_connection (options (_spdyState self))) in
  let family :=
    if test_spdy (resolved_protocol self protocol) then "spdy" else "http2" in
  (∀ k v, user !! k = Some v → conn_options c !! k = Some v) ∧
  (user !! "protocol" = None → conn_options c !! "protocol" = Some (str family)) ∧
  (user !! "isServer" = None → conn_options c !! "isServer" = Some (boolean true)) ∧
  (∀ k, user !! k = None → k ≠ "protocol" → k ≠ "isServer" →
        conn_options c !! k = None).
Proof.
  intros [_ ->]%session_built user family. simpl. unfold _extend. fold user family.
  split_and!.
  - intros k v Hk. by apply lookup_union_Some_l.
  - intros Hk. rewrite lookup_union_r by done. by rewrite lookup_insert_eq.
  - intros Hk. rewrite lookup_union_r by done.
    rewrite lookup_insert_ne by done. by rewrite lookup_singleton_eq.
  - intros k Hk Hp Hs. rewrite lookup_union_r by done.
    rewrite lookup_insert_ne by done. by rewrite lookup_singleton_ne.
Qed.

(** A server whose [connection] options set [protocol: 'spdy']: the
    session built for ['h2'] is of the ['spdy'] family. *)
Lemma session_options_override_witness :
  let socket := tls_socket 3 (str "h2") in
  ∃ c, c ∈ sessions (trace (_handleConnection tuned_server socket (str "h2"))) ∧
       conn_options c !! "protocol" = Some (str "spdy") ∧
       conn_options c !! "isServer" = Some (boolean true).
Proof.
  intros socket.
  set (c := {| conn_socket := socket;
               conn_options :=
                 _extend {[ "protocol" := str "http2"; "isServer" := boolean true ]}
                         {[ "protocol" := str "spdy";
                            "windowSize" := number 1048576 ]} |}).
  assert (Hin : c ∈ sessions (trace (_handleConnection tuned_server socket (str "h2"))))
    by (vm_compute; repeat constructor).
  exists c. split; [exact Hin|].
  destruct (session_options_override tuned_server socket (str "h2") c Hin)
    as (Huser & _ & Hserver & _).
  split.
  - apply Huser. reflexivity.
  - apply Hserver. reflexivity.
Defined.

(** ** From a session to the listeners and to the request *)

Section Streams.

Variable net_Socket : Handle → bool → Socket.

(** X14.  The one ['stream'] observer of a session is [_onStream]: a
    stream the session announces goes through exactly the calls of
    [_onStream], so it reaches every saved listener as an adapter
    socket and then gets [emitRequest]. *)
Theorem session_stream_runs_onStream
  (self : Server) (socket : Socket) (protocol : value) (c : Connection)
  (stream : Stream) :
  let t := trace (_handleConnection self socket protocol) in
  c ∈ sessions t →
  connection_listeners t c "stream" = [cb_stream] ∧
  emit_to net_Socket self (connection_listeners t c "stream") (args_stream stream)
  = _onStream net_Socket self stream.
Proof.
  intros t [Hgo ->]%session_built. subst t.
  destruct (_handleConnection_session self socket protocol Hgo) as (starts & -> & _).
  cbn [trace].
  match goal with
  | |- context [connection_on ?c "error" _] => set (c0 := c)
  end.
  assert (Hobservers :
    connection_listeners
      ([debug "incoming socket protocol=%j" [resolved_protocol self protocol];
        transport_connection_create c0]
       ++ (connection_start c0 <$> starts)
       ++ [connection_on c0 "error" (cb_destroy socket);
           connection_on c0 "stream" cb_stream]) c0 "stream" = [cb_stream]).
  { rewrite !connection_listeners_app, connection_listeners_starts. simpl.
    rewrite (bool_decide_eq_false_2 (c0 = c0 ∧ "error" = "stream")) by (by intros [_ ?]).
    by rewrite (bool_decide_eq_true_2 (c0 = c0 ∧ "stream" = "stream")). }
  rewrite Hobservers. split; [done|].
  cbn [emit_to run_callback]. rewrite _onStream_calls.
  unfold mbind, M_bind, mret, M_ret. cbn [trace result]. by rewrite app_nil_r.
Qed.

(** X16.  [_onStream] always returns, and changes three properties of
    the socket the host constructed and no other: the listeners get it
    with [encrypted], [readable] and [writable] set to [true] and with
    the constructor's [fd], [_handle], [allowHalfOpen], [npnProtocol]
    and [alpnProtocol]; the constructor is asked for a half-open
    socket. *)
Theorem onStream_keeps_constructed_socket
  (self : Server) (stream : Stream) (l : Listener) (socket : Socket) :
  (l, socket) ∈ listener_calls (trace (_onStream net_Socket self stream)) →
  let made := net_Socket {| getStream := stream |} true in
  result (_onStream net_Socket self stream) = returned () ∧
  net_Socket_new {| getStream := stream |} true
    ∈ trace (_onStream net_Socket self stream) ∧
  socket = {| fd := fd made; _handle := _handle made;
              allowHalfOpen := allowHalfOpen made;
              encrypted := boolean true; readable := true; writable := true;
              npnProtocol := npnProtocol made; alpnProtocol := alpnProtocol made |}.
Proof.
  intros Hcall made. subst made.
  rewrite _onStream_calls in Hcall |- *. cbn [trace result] in Hcall |- *.
  rewrite !listener_calls_app, listener_calls_fmap in Hcall. simpl in Hcall.
  rewrite app_nil_r in Hcall.
  apply list_elem_of_fmap in Hcall as (l' & [= _ ->] & _).
  split_and!; [done | | done].
  apply list_elem_of_further, list_elem_of_here.
Qed.

(** X17.  From a stream to its request.  On a host whose socket
    constructor stores the handle it is given, a request parsed on the
    socket a listener received from [_onStream] is recognised by
    [emit]: it is delivered with [isSpdy = true] and the version of
    that stream's session, after the very handle made for the stream
    was given the request and the response. *)
Theorem stream_request_round_trip
  (self : Server) (stream : Stream) (l : Listener) (socket : Socket)
  (req : Request) (res : Response) :
  (∀ h allow, _handle (net_Socket h allow) = spdy_handle h) →
  (l, socket) ∈ listener_calls (trace (_onStream net_Socket self stream)) →
  req_socket req = socket →
  req_connection req = socket →
  ∃ req' res',
    isSpdy req' = boolean true ∧
    spdyVersion req' = getVersion (stream_connection stream) ∧
    req_id req' = req_id req ∧ res_id res' = res_id res ∧
    emit self "request" req res =
    run [debug "override req/res" [];
         handle_assignRequest {| getStream := stream |} req';
         handle_assignResponse {| getStream := stream |} res';
         EventEmitter_emit "request" req' res']
        (returned ()).
Proof.
  intros Hhost Hcall Hsocket Hconn.
  rewrite _onStream_calls in Hcall. cbn [trace] in Hcall.
  rewrite !listener_calls_app, listener_calls_fmap in Hcall. simpl in Hcall.
  rewrite app_nil_r in Hcall.
  apply list_elem_of_fmap in Hcall as (l' & [= _ Hs] & _).
  destruct req as [id sock conn marked version]. simpl in Hsocket, Hconn. subst sock conn.
  unfold emit. simpl. rewrite Hs. simpl. rewrite Hhost. simpl.
  do 2 eexists. split_and!; [| | | |reflexivity]; done.
Qed.

End Streams.

(** A stream of a session at version 3.1, on a host whose constructor
    stores the handle. *)
Lemma session_stream_runs_onStream_witness :
  let socket := tls_socket 3 (str "spdy/3.1") in
  let c := {| conn_socket := socket;
              conn_options := {[ "protocol" := str "spdy"; "isServer" := boolean true ]} |} in
  let t := trace (_handleConnection secure_server socket (str "spdy/3.1")) in
  c ∈ sessions t ∧
  emit_to closed_net_Socket secure_server (connection_listeners t c "stream")
    (args_stream stream_1)
  = _onStream closed_net_Socket secure_server stream_1.
Proof.
  intros socket c t.
  assert (Hin : c ∈ sessions t) by (vm_compute; repeat constructor).
  split; [exact Hin|].
  apply (session_stream_runs_onStream closed_net_Socket secure_server socket
           (str "spdy/3.1") c stream_1 Hin).
Defined.

Lemma onStream_keeps_constructed_socket_witness :
  let socket := {| fd := 0; _handle := spdy_handle {| getStream := stream_1 |};
                   allowHalfOpen := true; encrypted := boolean true;
                   readable := true; writable := true;
                   npnProtocol := undefined; alpnProtocol := undefined |} in
  (21, socket) ∈ listener_calls (trace (_onStream closed_net_Socket secure_server stream_1)) ∧
  result (_onStream closed_net_Socket secure_server stream_1) = returned ().
Proof.
  intros socket.
  assert (Hin : (21, socket)
                ∈ listener_calls (trace (_onStream closed_net_Socket secure_server stream_1)))
    by (vm_compute; repeat constructor).
  split; [exact Hin|].
  apply (onStream_keeps_constructed_socket closed_net_Socket secure_server stream_1
           21 socket Hin).
Defined.

Lemma stream_request_round_trip_witness :
  let socket := {| fd := 0; _handle := spdy_handle {| getStream := stream_1 |};
                   allowHalfOpen := true; encrypted := boolean true;
                   readable := true; writable := true;
                   npnProtocol := undefined; alpnProtocol := undefined |} in
  ∃ req' res',
    isSpdy req' = boolean true ∧
    spdyVersion req' = number 3.1 ∧
    req_id req' = 1 ∧ res_id res' = 1 ∧
    emit secure_server "request" (request_on socket) response_1 =
    run [debug "override req/res" [];
         handle_assignRequest {| getStream := stream_1 |} req';
         handle_assignResponse {| getStream := stream_1 |} res';
         EventEmitter_emit "request" req' res']
        (returned ()).
Proof.
  intros socket.
  apply (stream_request_round_trip closed_net_Socket secure_server stream_1 20 socket
           (request_on socket) response_1).
  - reflexivity.
  - vm_compute. repeat constructor.
  - reflexivity.
  - reflexivity.
Defined.

(** ** The entry point of a server that sniffs nothing *)

(** X15.  On a server that is not a [tls.Server], [_onConnection]
    never reads the socket's negotiation results: whatever they hold,
    the connection is handled by the configured default protocol. *)
Theorem onConnection_insecure_uses_default (self : Server) (socket : Socket) :
  secure (_spdyState self) = false →
  _onConnection self socket =
  _handleConnection self socket (opt_protocol (options (_spdyState self))).
Proof.
  intros Hsecure. unfold _onConnection. cbv zeta. rewrite Hsecure.
  unfold _handleConnection. cbv zeta. simpl.
  replace (if negb (truthy (opt_protocol (options (_spdyState self))))
           then opt_protocol (options (_spdyState self))
           else opt_protocol (options (_spdyState self)))
    with (opt_protocol (options (_spdyState self)))
    by (by destruct (truthy (opt_protocol (options (_spdyState self))))).
  reflexivity.
Qed.

(** A plaintext server built without the [plain] option: a negotiation
    result on the socket changes nothing. *)
Lemma onConnection_insecure_uses_default_witness :
  let self :=
    {| _spdyState := {| options := no_spdy_options; secure := false;
                        listeners := [10; 11] |};
       httpAllowHalfOpen := true; connection_event := "connection";
       connection_entry := entry_onConnection; request_handlers := [] |} in
  _onConnection self (tls_socket 5 (str "spdy/3.1")) =
  _handleConnection self (tls_socket 5 (str "spdy/3.1")) undefined.
Proof.
  intros self.
  apply (onConnection_insecure_uses_default self (tls_socket 5 (str "spdy/3.1"))).
  reflexivity.
Defined.

(** ** The request shim, whole *)

(** X18.  [emit] hands its arguments to the base emitter on every
    input but one: a ['request'] whose [socket] has a stream handle
    while its [connection] has none.  There its own code fails before
    it has made any call: no handle is touched and nothing is passed
    on.  What the base emitter and its listeners do once called is
    outside this function. *)
Theorem emit_reaches_base_emitter_unless
  (self : Server) (name : string) (req : Request) (res : Response) :
  ((∀ n q s, EventEmitter_emit n q s ∉ trace (emit self name req res)) ↔
   name = "request" ∧
   instanceof_spdy_handle (_handle (req_socket req)) = true ∧
   instanceof_spdy_handle (_handle (req_connection req)) = false) ∧
  (name = "request" →
   instanceof_spdy_handle (_handle (req_socket req)) = true →
   instanceof_spdy_handle (_handle (req_connection req)) = false →
   trace (emit self name req res) = [] ∧
   ∃ message, result (emit self name req res) = thrown message).
Proof.
  unfold emit.
  destruct (String.eqb_spec name "request") as [->|Hname]; simpl.
  - destruct (_handle (req_socket req)) as [| |hs]; simpl;
      [| |destruct (_handle (req_connection req)) as [| |hc]; simpl];
      (split;
       [split;
        [intros Hnone; try (by split_and!); exfalso;
         eapply Hnone; repeat first [apply list_elem_of_here | apply list_elem_of_further]
        |intros (_ & H1 & H2); try discriminate H1; try discriminate H2;
         by intros n q s ?%elem_of_nil]
       |intros _ H1 H2; try discriminate H1; try discriminate H2; by eauto]).
  - split; [split|]; [|by intros (? & _)|done].
    intros Hnone. exfalso. eapply Hnone. apply list_elem_of_here.
Qed.

(** X19.  Marking is idempotent: running [emit] again on the pair it
    has delivered makes the same calls and delivers the same pair. *)
Theorem emit_idempotent
  (self : Server) (name : string) (req req' : Request) (res res' : Response) :
  EventEmitter_emit name req' res' ∈ trace (emit self name req res) →
  emit self name req' res' = emit self name req res.
Proof.
  unfold emit.
  destruct (String.eqb_spec name "request") as [->|Hname]; simpl.
  - destruct (_handle (req_socket req)) as [| |hs] eqn:Hs; simpl.
    + intros [[=]|[[= -> ->]|[]%elem_of_nil]%elem_of_cons]%elem_of_cons.
      simpl. by rewrite Hs.
    + intros [[=]|[[= -> ->]|[]%elem_of_nil]%elem_of_cons]%elem_of_cons.
      simpl. by rewrite Hs.
    + destruct (_handle (req_connection req)) as [| |hc] eqn:Hc; simpl;
        try (by intros []%elem_of_nil).
      intros [[=]|[[=]|[[=]|[[= -> ->]|[]%elem_of_nil]%elem_of_cons]%elem_of_cons]%elem_of_cons]%elem_of_cons.
      simpl. by rewrite Hs, Hc.
  - intros [[= -> ->]|[]%elem_of_nil]%elem_of_cons.
    by destruct (String.eqb_spec name "request").
Qed.

(** The pair delivered for a request on an adapter socket. *)
Lemma emit_idempotent_witness :
  let socket := closed_net_Socket {| getStream := stream_1 |} true in
  let req' := {| req_id := 1; req_socket := socket; req_connection := socket;
                 isSpdy := boolean true; spdyVersion := number 3.1 |} in
  let res' := {| res_id := 1; writeHead := Some spdy_response_writeHead;
                 end_ := Some spdy_response_end; push := Some spdy_response_push |} in
  emit secure_server "request" req' res' =
  emit secure_server "request" (request_on socket) response_1.
Proof.
  intros socket req' res'.
  apply (emit_idempotent secure_server "request" (request_on socket) req' response_1 res').
  vm_compute. repeat constructor.
Defined.

(** X20.  When [emit] returns it has called the base emitter exactly
    once, as its last call, with the event's own name and with the
    request and response it was given (same identity, same sockets). *)
Theorem emit_delivers_once_last
  (self : Server) (name : string) (req : Request) (res : Response) :
  result (emit self name req res) = returned () →
  ∃ before req' res',
    trace (emit self name req res) = before ++ [EventEmitter_emit name req' res'] ∧
    (∀ n q s, EventEmitter_emit n q s ∉ before) ∧
    req_id req' = req_id req ∧ req_socket req' = req_socket req ∧
    req_connection req' = req_connection req ∧ res_id res' = res_id res.
Proof.
  unfold emit.
  destruct (String.eqb_spec name "request") as [->|Hname]; simpl.
  - destruct (_handle (req_socket req)) as [| |hs]; simpl.
    + intros _. eexists [_], _, _. split_and!; try done.
      intros n q s [[=]|[]%elem_of_nil]%elem_of_cons.
    + intros _. eexists [_], _, _. split_and!; try done.
      intros n q s [[=]|[]%elem_of_nil]%elem_of_cons.
    + destruct (_handle (req_connection req)) as [| |hc]; simpl; try done.
      intros _. eexists [_; _; _], _, _. split_and!; try done.
      intros n q s [[=]|[[=]|[[=]|[]%elem_of_nil]%elem_of_cons]%elem_of_cons]%elem_of_cons.
  - intros _. exists [], req, res. split_and!; try done.
    intros n q s []%elem_of_nil.
Qed.

(** A request on a plain socket. *)
Lemma emit_delivers_once_last_witness :
  ∃ before req' res',
    trace (emit secure_server "request" (request_on (tcp_socket 5)) response_1)
      = before ++ [EventEmitter_emit "request" req' res'] ∧
    (∀ n q s, EventEmitter_emit n q s ∉ before) ∧
    req_id req' = 1 ∧ req_socket req' = tcp_socket 5 ∧
    req_connection req' = tcp_socket 5 ∧ res_id res' = 1.
Proof.
  apply (emit_delivers_once_last secure_server "request" (request_on (tcp_socket 5))
           response_1).
  reflexivity.
Defined.

(** ** [create] *)

Lemma _init_event (base : Base) (opts : Options) (handler : option Listener)
  (self : Server) :
  result (_init base opts handler) = returned self →
  connection_event self =
    (if instanceof_tls_Server base then "secureConnection" else "connection").
Proof.
  unfold _init. cbv zeta.
  destruct (instanceof_tls_Server base); simpl;
    case_bool_decide; simpl; try done; by intros [= <-].
Qed.

(** X21.  A server made by [create(options, handler)], that is without
    a listener type, never sniffs a secured connection: it is a
    [tls.Server] dispatching ['secureConnection'] to [_onConnection],
    or, with [spdy.plain] set, a plaintext server dispatching
    ['connection'] to [_onPlainConnection]. *)
Theorem create_without_base_plain_or_secure
  (node_https_Server node_http_Server : Base)
  (opts : Options) (handler : option Listener) (self : Server) :
  instanceof_tls_Server node_https_Server = true →
  instanceof_tls_Server node_http_Server = false →
  result (create node_https_Server node_http_Server (without_base opts handler))
    = returned self →
  (secure (_spdyState self) = true ∧
   connection_event self = "secureConnection" ∧
   connection_entry self = entry_onConnection ∧
   listeners (_spdyState self) = base_listeners node_https_Server "secureConnection") ∨
  (secure (_spdyState self) = false ∧
   connection_event self = "connection" ∧
   connection_entry self = entry_onPlainConnection ∧
   listeners (_spdyState self) = base_listeners node_http_Server "connection").
Proof.
  intros Hhttps Hhttp. unfold create, instantiate.
  destruct (spdy opts) as [spdy_options|] eqn:Hspdy;
    [destruct (truthy (opt_plain spdy_options)) eqn:Hplain|];
    intros Hres;
    pose proof (_init_event _ _ _ _ Hres) as Hevent;
    pose proof (_init_returned _ _ _ _ Hres) as (_ & Hsecure & Hls & _ & Hentry);
    rewrite Hspdy in Hentry; simpl in Hentry; rewrite ?Hplain in Hentry;
    rewrite ?Hhttps, ?Hhttp in *; rewrite Hevent in Hls;
    [right | left | left]; done.
Qed.

(** [create({ spdy: { plain: true, protocol: 'spdy/3.1' } })] and
    [create({})]. *)
Lemma create_without_base_plain_or_secure_witness :
  result (create https_Server http_Server (without_base plain_options None))
    = returned plain_server ∧
  connection_entry plain_server = entry_onPlainConnection ∧
  result (create https_Server http_Server (without_base no_options None))
    = returned secure_server ∧
  connection_entry secure_server = entry_onConnection.
Proof.
  assert (Hplain := create_without_base_plain_or_secure https_Server http_Server
                      plain_options None plain_server eq_refl eq_refl eq_refl).
  assert (Hsecure := create_without_base_plain_or_secure https_Server http_Server
                       no_options None secure_server eq_refl eq_refl eq_refl).
  split_and!; [reflexivity | | reflexivity | ].
  - destruct Hplain as [(Hs & _) | (_ & _ & He & _)]; [discriminate Hs | exact He].
  - destruct Hsecure as [(_ & _ & He & _) | (Hs & _)]; [exact He | discriminate Hs].
Defined.

(** ** What a sniffed connection becomes *)


